(** * iso_mount_tool: mount-point derivation and mount lifecycle

    A shallow embedding of [iso_mount_tool.py].  Python [str] values are
    lists of Unicode code points, bytes are integers in [0, 256), and the
    operating system is an interface of oracles over an abstract world. *)

From Stdlib Require Import ZArith List Bool Lia Ascii.
From Stdlib Require String.
Import String.StringSyntax.
From Equations Require Import Equations.
Import ListNotations.
Delimit Scope string_scope with string.
Open Scope Z_scope.

(** ** Python strings *)

(** A [str] is its sequence of code points. *)
Definition str := list Z.

(** A string literal of the source, as code points. *)
Definition lit (s : String.string) : str :=
  map (fun a => Z.of_N (N_of_ascii a)) (String.list_ascii_of_string s).
Arguments lit s%_string.

Definition str_eqb (a b : str) : bool :=
  if list_eq_dec Z.eq_dec a b then true else false.

(** [s.startswith(p)] *)
Fixpoint startswith (s p : str) {struct p} : bool :=
  match p, s with
  | [], _ => true
  | _ :: _, [] => false
  | a :: p', b :: s' => (a =? b) && startswith s' p'
  end.

(** [s.endswith(p)] *)
Definition endswith (s p : str) : bool := startswith (rev s) (rev p).

(** [s[i:j]] for [0 <= i], [0 <= j]. *)
Definition slice (s : str) (i j : Z) : str :=
  firstn (Z.to_nat (j - i)) (skipn (Z.to_nat i) s).

(** [s[i:]] *)
Definition slice_from (s : str) (i : Z) : str := skipn (Z.to_nat i) s.

(** [s[:j]] *)
Definition slice_to (s : str) (j : Z) : str := firstn (Z.to_nat j) s.

Fixpoint rfind_from (c : Z) (s : str) (i last : Z) : Z :=
  match s with
  | [] => last
  | x :: t => rfind_from c t (i + 1) (if x =? c then i else last)
  end.

(** [s.rfind(c)] for a one-character [c]: the last index of [c], or [-1]. *)
Definition rfind (s : str) (c : Z) : Z := rfind_from c s 0 (-1).

Definition chr_underscore : Z := 95.
Definition chr_dot : Z := 46.
Definition chr_dash : Z := 45.
Definition chr_slash : Z := 47.

(** ** The [re] character class [\w]

    For a [str] pattern [\w] matches a code point [c] when
    [Py_UNICODE_ISALNUM(c)] holds or [c] is the underscore.  The table is
    written out for ASCII and Latin-1; beyond U+00FF it is the Unicode
    character database of the interpreter, which is no part of the
    repository, and enters as [ucd_isalnum]. *)

Definition ascii_isalnum (c : Z) : bool :=
  ((48 <=? c) && (c <=? 57)) || ((65 <=? c) && (c <=? 90))
  || ((97 <=? c) && (c <=? 122)).

Definition latin1_isalnum (c : Z) : bool :=
  existsb (Z.eqb c) [0xAA; 0xB2; 0xB3; 0xB5; 0xB9; 0xBA; 0xBC; 0xBD; 0xBE]
  || ((0xC0 <=? c) && (c <=? 0xD6)) || ((0xD8 <=? c) && (c <=? 0xF6))
  || ((0xF8 <=? c) && (c <=? 0xFF)).

(** The interpreter's Unicode tables beyond what is written out here:
    [ucd_isalnum c] for code points above U+00FF, and [ucd_lower s], the
    value of [s.lower()] for a string that is not pure ASCII. *)
Class UnicodeData := {
  ucd_isalnum : Z -> bool;
  ucd_lower : str -> str
}.

Section Unicode.
Context {U : UnicodeData}.

Definition Py_UNICODE_ISALNUM (c : Z) : bool :=
  if c <? 128 then ascii_isalnum c
  else if c <? 256 then latin1_isalnum c
  else ucd_isalnum c.

(** [\w] *)
Definition is_word (c : Z) : bool :=
  Py_UNICODE_ISALNUM c || (c =? chr_underscore).

(** [[\w.-]], the characters that [sanitize_filename] keeps. *)
Definition in_keep_class (c : Z) : bool :=
  is_word c || (c =? chr_dot) || (c =? chr_dash).

(** [re.sub(r'[^\w.-]', '_', s)]: the pattern matches exactly one
    character, so every character outside the class becomes ['_']. *)
Definition sub_non_word (s : str) : str :=
  map (fun c => if in_keep_class c then c else chr_underscore) s.

End Unicode.

(** The length of the run of underscores that [s] starts with. *)
Fixpoint underscore_run (s : str) : nat :=
  match s with
  | c :: t => if c =? chr_underscore then S (underscore_run t) else O
  | [] => O
  end.

(** [re.sub(r'_{2,}', '_', s)]: scanning from the left, where two or more
    underscores start the greedy match takes the whole run and one ['_'] is
    written for it; elsewhere the character is copied. *)
Equations? sub_underscore_runs (s : str) : str by wf (length s) lt :=
  sub_underscore_runs [] := [];
  sub_underscore_runs (c :: t) with (2 <=? underscore_run (c :: t))%nat => {
    | true := chr_underscore :: sub_underscore_runs (skipn (underscore_run t) t);
    | false := c :: sub_underscore_runs t }.
Proof. rewrite length_skipn. lia. Qed.

(** [s.lstrip(chars)] *)
Fixpoint lstrip (s chars : str) : str :=
  match s with
  | c :: t => if existsb (Z.eqb c) chars then lstrip t chars else s
  | [] => []
  end.

(** [s.rstrip(chars)] *)
Definition rstrip (s chars : str) : str := rev (lstrip (rev s) chars).

(** [s.strip(chars)] *)
Definition strip (s chars : str) : str := rstrip (lstrip s chars) chars.

Section Sanitize.
Context {U : UnicodeData}.

Definition sanitize_filename (filename : str) : str :=
  let filename := sub_non_word filename in
  let filename := sub_underscore_runs filename in
  strip filename (lit "_").

End Sanitize.

(** ** [str.lower] and [str.encode] *)

Definition is_ascii (s : str) : bool :=
  forallb (fun c => (0 <=? c) && (c <? 128)) s.

Definition ascii_lower (c : Z) : Z :=
  if (65 <=? c) && (c <=? 90) then c + 32 else c.

(** [s.lower()]: the ASCII letters are mapped here; a string with a
    character outside ASCII goes through the interpreter's case tables. *)
Definition lower {U : UnicodeData} (s : str) : str :=
  if is_ascii s then map ascii_lower s else ucd_lower s.

(** The UTF-8 bytes of one code point.  A surrogate (U+D800..U+DFFF) has
    none: the codec refuses it. *)
Definition utf8_char (c : Z) : option (list Z) :=
  if c <? 0 then None
  else if c <? 0x80 then Some [c]
  else if c <? 0x800 then Some [0xC0 + c / 64; 0x80 + c mod 64]
  else if (0xD800 <=? c) && (c <=? 0xDFFF) then None
  else if c <? 0x10000 then
    Some [0xE0 + c / 4096; 0x80 + (c / 64) mod 64; 0x80 + c mod 64]
  else if c <? 0x110000 then
    Some [0xF0 + c / 262144; 0x80 + (c / 4096) mod 64;
          0x80 + (c / 64) mod 64; 0x80 + c mod 64]
  else None.

(** [s.encode()] (UTF-8, strict): [None] stands for [UnicodeEncodeError]. *)
Fixpoint encode (s : str) : option (list Z) :=
  match s with
  | [] => Some []
  | c :: t =>
      match utf8_char c, encode t with
      | Some b, Some bs => Some (b ++ bs)
      | _, _ => None
      end
  end.

(** ** [hashlib.sha256] (FIPS 180-4), on 32-bit words held in [Z] *)

Module SHA256.

Definition mask32 : Z := 0xFFFFFFFF.
Definition add32 (x y : Z) : Z := (x + y) mod 2 ^ 32.
Definition rotr (n x : Z) : Z :=
  Z.lor (Z.shiftr x n) (Z.land (Z.shiftl x (32 - n)) mask32).
Definition not32 (x : Z) : Z := Z.lxor x mask32.
Definition xor3 (x y z : Z) : Z := Z.lxor (Z.lxor x y) z.

Definition Ch (x y z : Z) : Z := Z.lxor (Z.land x y) (Z.land (not32 x) z).
Definition Maj (x y z : Z) : Z := xor3 (Z.land x y) (Z.land x z) (Z.land y z).
Definition Sigma0 (x : Z) : Z := xor3 (rotr 2 x) (rotr 13 x) (rotr 22 x).
Definition Sigma1 (x : Z) : Z := xor3 (rotr 6 x) (rotr 11 x) (rotr 25 x).
Definition sigma0 (x : Z) : Z := xor3 (rotr 7 x) (rotr 18 x) (Z.shiftr x 3).
Definition sigma1 (x : Z) : Z := xor3 (rotr 17 x) (rotr 19 x) (Z.shiftr x 10).

Definition is_prime (n : Z) : bool :=
  (2 <=? n)
  && forallb (fun d => negb (n mod d =? 0))
             (map Z.of_nat (seq 2 (Z.to_nat n - 2))).

(** The first sixty-four primes, 2 to 311. *)
Definition primes : list Z :=
  Eval vm_compute in filter is_prime (map Z.of_nat (seq 2 310)).

(** The integer part of the cube root, found bit by bit from the top. *)
Definition icbrt (n : Z) : Z :=
  fold_left (fun r k => let r' := r + 2 ^ k in
                        if r' * r' * r' <=? n then r' else r)
            (map Z.of_nat (rev (seq 0 40))) 0.

(** The first 32 bits of the fractional part of a cube root and of a
    square root. *)
Definition frac32_cbrt (p : Z) : Z := icbrt (p * 2 ^ 96) mod 2 ^ 32.
Definition frac32_sqrt (p : Z) : Z := Z.sqrt (p * 2 ^ 64) mod 2 ^ 32.

(** The round constants: from the cube roots of the first 64 primes. *)
Definition K : list Z := Eval vm_compute in map frac32_cbrt primes.

(** The eight working words. *)
Record words8 := W8 { wa : Z; wb : Z; wc : Z; wd : Z;
                      we : Z; wf : Z; wg : Z; wh : Z }.

(** The initial hash value: from the square roots of the first 8 primes. *)
Definition H0 : words8 :=
  Eval vm_compute in
    W8 (frac32_sqrt 2) (frac32_sqrt 3) (frac32_sqrt 5) (frac32_sqrt 7)
       (frac32_sqrt 11) (frac32_sqrt 13) (frac32_sqrt 17) (frac32_sqrt 19).

(** Big-endian 32-bit words of a byte sequence. *)
Fixpoint be_words (bs : list Z) : list Z :=
  match bs with
  | a :: b :: c :: d :: t =>
      (a * 2 ^ 24 + b * 2 ^ 16 + c * 2 ^ 8 + d) :: be_words t
  | _ => []
  end.

(** The message schedule: [n] more words after the ones in [w]. *)
Fixpoint schedule (n : nat) (w : list Z) : list Z :=
  match n with
  | O => w
  | S n' =>
      let t := length w in
      let x := add32 (add32 (sigma1 (nth (t - 2) w 0)) (nth (t - 7) w 0))
                     (add32 (sigma0 (nth (t - 15) w 0)) (nth (t - 16) w 0)) in
      schedule n' (w ++ [x])
  end.

Definition round (s : words8) (kw : Z * Z) : words8 :=
  let t1 := add32 (add32 (add32 (wh s) (Sigma1 (we s)))
                         (add32 (Ch (we s) (wf s) (wg s)) (fst kw))) (snd kw) in
  let t2 := add32 (Sigma0 (wa s)) (Maj (wa s) (wb s) (wc s)) in
  W8 (add32 t1 t2) (wa s) (wb s) (wc s) (add32 (wd s) t1) (we s) (wf s) (wg s).

(** One 64-byte block folded into the hash value. *)
Definition compress (h : words8) (block : list Z) : words8 :=
  let w := schedule 48 (be_words block) in
  let s := fold_left round (combine K w) h in
  W8 (add32 (wa h) (wa s)) (add32 (wb h) (wb s))
     (add32 (wc h) (wc s)) (add32 (wd h) (wd s))
     (add32 (we h) (we s)) (add32 (wf h) (wf s))
     (add32 (wg h) (wg s)) (add32 (wh h) (wh s)).

(** The bytes are taken in one at a time; a full buffer is compressed. *)
Fixpoint absorb (h : words8) (buf bs : list Z) : words8 :=
  match bs with
  | [] => h
  | b :: t =>
      let buf' := buf ++ [b] in
      if (length buf' =? 64)%nat then absorb (compress h buf') [] t
      else absorb h buf' t
  end.

Definition be64 (n : Z) : list Z :=
  map (fun k => (n / 2 ^ (8 * k)) mod 256) [7; 6; 5; 4; 3; 2; 1; 0].

(** The message, a 1 bit, zeros up to 56 modulo 64, and the bit length. *)
Definition pad (msg : list Z) : list Z :=
  let n := Z.of_nat (length msg) in
  msg ++ [0x80] ++ repeat 0 (Z.to_nat ((55 - n) mod 64)) ++ be64 (8 * n).

Definition be32 (w : Z) : list Z :=
  [(w / 2 ^ 24) mod 256; (w / 2 ^ 16) mod 256; (w / 2 ^ 8) mod 256; w mod 256].

(** [hashlib.sha256(msg).digest()]: 32 bytes. *)
Definition digest (msg : list Z) : list Z :=
  let h := absorb H0 [] (pad msg) in
  be32 (wa h) ++ be32 (wb h) ++ be32 (wc h) ++ be32 (wd h)
  ++ be32 (we h) ++ be32 (wf h) ++ be32 (wg h) ++ be32 (wh h).

Definition hexdigit (n : Z) : Z := if n <? 10 then 48 + n else 87 + n.

Definition hex_byte (b : Z) : str := [hexdigit (b / 16); hexdigit (b mod 16)].

(** [hashlib.sha256(msg).hexdigest()]: 64 lower-case hexadecimal digits. *)
Definition hexdigest (msg : list Z) : str := flat_map hex_byte (digest msg).

End SHA256.

(** ** [os.path] on POSIX *)

Definition sep : str := lit "/".

(** [os.path.isabs] *)
Definition isabs (p : str) : bool := startswith p sep.

(** [os.path.join(a, b)] *)
Definition join (a b : str) : str :=
  if startswith b sep then b
  else if match a with [] => true | _ => false end || endswith a sep then a ++ b
  else a ++ sep ++ b.

(** [os.path.basename(p)] *)
Definition basename (p : str) : str :=
  let i := rfind p chr_slash + 1 in
  slice_from p i.

(** [os.path.splitext(p)]: the extension starts at the last dot of the last
    component, unless only dots stand before it there. *)
Definition splitext (p : str) : str * str :=
  let sepIndex := rfind p chr_slash in
  let dotIndex := rfind p chr_dot in
  if (dotIndex >? sepIndex)
     && existsb (fun c => negb (c =? chr_dot)) (slice p (sepIndex + 1) dotIndex)
  then (slice_to p dotIndex, slice_from p dotIndex)
  else (p, []).

(** [p.split('/')] *)
Fixpoint split_slash (p : str) : list str :=
  match p with
  | [] => [[]]
  | c :: t =>
      if c =? chr_slash then [] :: split_slash t
      else match split_slash t with
           | comp :: rest => (c :: comp) :: rest
           | [] => [[c]]
           end
  end.

(** ['/'.join(comps)] *)
Fixpoint join_slash (comps : list str) : str :=
  match comps with
  | [] => []
  | [c] => c
  | c :: rest => c ++ sep ++ join_slash rest
  end.

(** The loop of [os.path.normpath] over the components; [new_comps] is held
    with its last element first. *)
Fixpoint norm_comps (initial_slashes : Z) (comps new_comps : list str) : list str :=
  match comps with
  | [] => rev new_comps
  | comp :: rest =>
      if str_eqb comp [] || str_eqb comp (lit ".") then
        norm_comps initial_slashes rest new_comps
      else if negb (str_eqb comp (lit ".."))
              || ((initial_slashes =? 0) && match new_comps with [] => true | _ => false end)
              || match new_comps with last :: _ => str_eqb last (lit "..") | [] => false end
      then norm_comps initial_slashes rest (comp :: new_comps)
      else norm_comps initial_slashes rest (tl new_comps)
  end.

(** [os.path.normpath(path)] *)
Definition normpath (path : str) : str :=
  match path with
  | [] => lit "."
  | _ =>
      let initial_slashes :=
        if startswith path sep then
          if startswith path (lit "//") && negb (startswith path (lit "///"))
          then 2 else 1
        else 0 in
      let comps := norm_comps initial_slashes (split_slash path) [] in
      let path := join_slash comps in
      let path := repeat chr_slash (Z.to_nat initial_slashes) ++ path in
      match path with [] => lit "." | _ => path end
  end.

(** ** Exceptions and results *)

Inductive exn :=
| UnicodeEncodeError
| FileNotFoundError (text : str)
| OSError (text : str)                    (* any other [OSError] *)
| CalledProcessError (stdout stderr : str)
| SystemExit (code : Z).

Inductive result (A : Type) :=
| Ok (a : A)
| Raise (e : exn).
Arguments Ok {A} a.
Arguments Raise {A} e.

(** ** The mount point of an image *)

Section MountPoint.
Context {U : UnicodeData}.

(** [os.path.expanduser("~")], fixed when the module is loaded. *)
Variable home : str.

Definition BASE_MOUNT_DIR : str := join home (lit ".iso_mounts").

Definition get_mount_point (iso_path : str) : result str :=
  let iso_name := fst (splitext (basename iso_path)) in
  match encode iso_path with
  | None => Raise UnicodeEncodeError
  | Some bytes =>
      let path_hash := slice_to (SHA256.hexdigest bytes) 8 in
      let mount_dir_name := sanitize_filename (iso_name ++ lit "_" ++ path_hash) in
      Ok (join BASE_MOUNT_DIR mount_dir_name)
  end.

End MountPoint.

(** ** The operating system

    What the tool asks of the system, as oracles over an abstract world.
    A query reads the world; a call also changes it.  A call that fails
    raises the exception it would raise in Python. *)

Class OS (World : Type) := {
  os_getcwd : World -> str;
  os_path_exists : World -> str -> bool;
  os_path_isfile : World -> str -> bool;
  os_path_ismount : World -> str -> bool;
  os_listdir : World -> str -> result (list str);
  (** [os.makedirs(path, exist_ok=True)] *)
  os_makedirs : World -> str -> result unit * World;
  os_rmdir : World -> str -> result unit * World;
  (** [subprocess.run(argv, check=True, text=True, capture_output=True)] *)
  subprocess_run : World -> list str -> result unit * World;
  subprocess_Popen : World -> list str -> result unit * World
}.

(** [os.path.abspath(path)] *)
Definition abspath {World : Type} {os : OS World} (w : World) (path : str) : str :=
  normpath (if isabs path then path else join (os_getcwd w) path).

Inductive stream := stdout | stderr.

(** What an execution does, in order: the lines it prints and the calls
    that may change the system. *)
Inductive event :=
| Print (to : stream) (text : str)
| Makedirs (path : str)
| Rmdir (path : str)
| Run (argv : list str)
| Popen (argv : list str).

Section Lifecycle.
Context {World : Type}.

(** The state of an execution: the world, and every event so far with the
    world it happened in. *)
Record state := St { world : World; log : list (World * event) }.

Definition M (A : Type) : Type := state -> result A * state.

Definition ret {A} (a : A) : M A := fun s => (Ok a, s).

Definition bind {A B} (m : M A) (k : A -> M B) : M B :=
  fun s => match m s with
           | (Ok a, s') => k a s'
           | (Raise e, s') => (Raise e, s')
           end.

Definition raise {A} (e : exn) : M A := fun s => (Raise e, s).

(** [try: body / except ...: handler]; [handler e = None] when no clause
    matches [e]. *)
Definition try_except {A} (body : M A) (handler : exn -> option (M A)) : M A :=
  fun s => match body s with
           | (Ok a, s') => (Ok a, s')
           | (Raise e, s') =>
               match handler e with
               | Some h => h s'
               | None => (Raise e, s')
               end
           end.

Definition lift {A} (r : result A) : M A := fun s => (r, s).

Definition query {A} (f : World -> A) : M A := fun s => (Ok (f (world s)), s).

Definition emit (e : event) : M unit :=
  fun s => (Ok tt, St (world s) (log s ++ [(world s, e)])).

Definition call {A} (e : event) (f : World -> result A * World) : M A :=
  fun s => let (r, w') := f (world s) in
           (r, St w' (log s ++ [(world s, e)])).

Definition print (to : stream) (text : str) : M unit := emit (Print to text).

Definition sys_exit {A} (code : Z) : M A := raise (SystemExit code).

Definition when (b : bool) (m : M unit) : M unit := if b then m else ret tt.

End Lifecycle.
Arguments state World : clear implicits.
Arguments M World A : clear implicits.

Notation "x <- m ;; k" := (bind m (fun x => k))
  (at level 61, m at next level, right associativity).
Notation "m ;; k" := (bind m (fun _ => k))
  (at level 61, right associativity).

(** The text an exception shows in an f-string. *)
Definition exn_text (e : exn) : str :=
  match e with
  | FileNotFoundError t | OSError t => t
  | _ => []
  end.

(** [except OSError] *)
Definition is_OSError (e : exn) : bool :=
  match e with
  | FileNotFoundError _ | OSError _ => true
  | _ => false
  end.

Definition nl : str := [10].

(** The messages, by the line of the source that prints them. *)
Module Msg.
Definition iso_not_found (p : str) : str :=
  lit "Error: ISO file not found at '" ++ p ++ lit "'".
Definition not_an_iso (p : str) : str :=
  lit "Error: '" ++ p ++ lit "' does not appear to be an ISO file.".
Definition already_mounted (p mp : str) : str :=
  lit "Info: '" ++ p ++ lit "' is already mounted at '" ++ mp ++ lit "'.".
Definition no_xdg_open (mp : str) : str :=
  lit "Warning: 'xdg-open' not found. Cannot automatically open '" ++ mp ++ lit "'.".
Definition base_dir_failed (base e : str) : str :=
  lit "Error: Could not create base mount directory '" ++ base ++ lit "': " ++ e.
Definition mount_dir_failed (mp e : str) : str :=
  lit "Error: Could not create mount directory '" ++ mp ++ lit "': " ++ e.
Definition attempting_mount (p mp : str) : str :=
  lit "Attempting to mount '" ++ p ++ lit "' to '" ++ mp ++ lit "'...".
Definition mounted (p mp : str) : str :=
  lit "Successfully mounted '" ++ p ++ lit "' at '" ++ mp ++ lit "'.".
Definition next_steps : str := nl ++ lit "--- Next Steps ---".
Definition access_hint (mp : str) : str :=
  lit "You can now access its contents in your file manager, or directly via: '"
  ++ mp ++ lit "'".
Definition unmount_hint : str :=
  lit "To unmount, right-click the original ISO file again and select 'Unmount ISO'.".
Definition mount_failed (out err : str) : str :=
  lit "Error mounting ISO:" ++ nl ++ lit "StdOut: " ++ out ++ nl
  ++ lit "StdErr: " ++ err.
Definition cleaned_after_failed_mount (mp : str) : str :=
  lit "Cleaned up empty directory '" ++ mp ++ lit "' after failed mount.".
Definition rmdir_mount_dir_failed (mp e : str) : str :=
  lit "Warning: Could not remove empty mount directory '" ++ mp ++ lit "': " ++ e.
Definition no_mount_command : str :=
  lit "Error: 'mount' command not found. Please ensure it is installed and in your PATH.".
Definition no_mount_point (mp p : str) : str :=
  lit "Info: Mount point '" ++ mp ++ lit "' for '" ++ p ++ lit "' does not exist.".
Definition not_mounted (p mp : str) : str :=
  lit "Info: '" ++ p ++ lit "' (or its mount point '" ++ mp
  ++ lit "') is not currently mounted or is not a mount point.".
Definition cleaned_empty_dir (mp : str) : str :=
  lit "Cleaned up empty directory: '" ++ mp ++ lit "'".
Definition rmdir_failed (mp e : str) : str :=
  lit "Warning: Could not remove empty directory '" ++ mp ++ lit "': " ++ e.
Definition attempting_unmount (mp : str) : str :=
  lit "Attempting to unmount '" ++ mp ++ lit "'...".
Definition unmounted (mp : str) : str :=
  lit "Successfully unmounted '" ++ mp ++ lit "'.".
Definition cleaned_mount_dir (mp : str) : str :=
  lit "Cleaned up mount directory: '" ++ mp ++ lit "'".
Definition not_empty (mp : str) : str :=
  lit "Warning: Mount directory '" ++ mp ++ lit "' is not empty after unmount, leaving it.".
Definition manual_cleanup : str :=
  lit "You may need to manually clean up its contents and remove it if it's no longer needed.".
Definition unmount_failed (mp out err : str) : str :=
  lit "Error unmounting '" ++ mp ++ lit "':" ++ nl ++ lit "StdOut: " ++ out ++ nl
  ++ lit "StdErr: " ++ err.
Definition open_files_hint : str :=
  lit "Ensure no files are open within the mounted directory and try again.".
Definition no_umount_command : str :=
  lit "Error: 'umount' command not found. Please ensure it is installed and in your PATH.".
Definition usage : str := lit "Usage: iso_mount_tool.py <action> <iso_path>".
Definition actions : str := lit "Actions: mount, unmount".
Definition unknown_action (a : str) : str :=
  lit "Error: Unknown action '" ++ a ++ lit "'. Use 'mount' or 'unmount'.".
End Msg.

Section Tool.
Context {U : UnicodeData} {World : Type} {os : OS World}.
Variable home : str.

#[local] Abbreviation M := (M World).

Definition is_mounted (mount_point : str) : M bool :=
  query (fun w => os_path_ismount w mount_point).

Definition is_nil {A} (l : list A) : bool :=
  match l with [] => true | _ => false end.

(** [os.path.exists(p) and not os.listdir(p)]: the listing is made only
    where the path exists, and may raise. *)
Definition exists_and_empty (p : str) : M bool :=
  e <- query (fun w => os_path_exists w p) ;;
  if e then
    l <- (fun s => lift (os_listdir (world s) p) s) ;;
    ret (is_nil l)
  else ret false.

(** [subprocess.Popen(['xdg-open', mount_point])], with the only failure
    that is caught. *)
Definition open_in_file_manager (mount_point : str) : M unit :=
  try_except
    (call (Popen [lit "xdg-open"; mount_point])
          (fun w => subprocess_Popen w [lit "xdg-open"; mount_point]))
    (fun e => match e with
              | FileNotFoundError _ =>
                  Some (print stdout (Msg.no_xdg_open mount_point))
              | _ => None
              end).

Definition mount_iso (iso_path : str) : M unit :=
  iso_path <- query (fun w => abspath w iso_path) ;;
  found <- query (fun w => os_path_exists w iso_path) ;;
  when (negb found)
    (print stderr (Msg.iso_not_found iso_path) ;; sys_exit 1) ;;
  when (negb (endswith (lower iso_path) (lit ".iso")))
    (print stderr (Msg.not_an_iso iso_path) ;; sys_exit 1) ;;
  mount_point <- lift (get_mount_point home iso_path) ;;
  mounted <- is_mounted mount_point ;;
  when mounted
    (print stdout (Msg.already_mounted iso_path mount_point) ;;
     open_in_file_manager mount_point ;;
     sys_exit 0) ;;
  try_except
    (call (Makedirs (BASE_MOUNT_DIR home))
          (fun w => os_makedirs w (BASE_MOUNT_DIR home)))
    (fun e => if is_OSError e then
                Some (print stderr
                        (Msg.base_dir_failed (BASE_MOUNT_DIR home) (exn_text e)) ;;
                      sys_exit 1)
              else None) ;;
  try_except
    (call (Makedirs mount_point) (fun w => os_makedirs w mount_point))
    (fun e => if is_OSError e then
                Some (print stderr (Msg.mount_dir_failed mount_point (exn_text e)) ;;
                      sys_exit 1)
              else None) ;;
  try_except
    (print stdout (Msg.attempting_mount iso_path mount_point) ;;
     call (Run [lit "mount"; lit "-o"; lit "loop"; iso_path; mount_point])
          (fun w => subprocess_run w
                      [lit "mount"; lit "-o"; lit "loop"; iso_path; mount_point]) ;;
     print stdout (Msg.mounted iso_path mount_point) ;;
     print stdout Msg.next_steps ;;
     print stdout (Msg.access_hint mount_point) ;;
     print stdout Msg.unmount_hint ;;
     open_in_file_manager mount_point)
    (fun e => match e with
              | CalledProcessError out err =>
                  Some (print stderr (Msg.mount_failed out err) ;;
                        empty <- exists_and_empty mount_point ;;
                        when empty
                          (try_except
                             (call (Rmdir mount_point)
                                   (fun w => os_rmdir w mount_point) ;;
                              print stdout (Msg.cleaned_after_failed_mount mount_point))
                             (fun ex => if is_OSError ex then
                                          Some (print stderr
                                                  (Msg.rmdir_mount_dir_failed
                                                     mount_point (exn_text ex)))
                                        else None)) ;;
                        sys_exit 1)
              | FileNotFoundError _ =>
                  Some (print stderr Msg.no_mount_command ;; sys_exit 1)
              | _ => None
              end).

Definition unmount_iso (iso_path : str) : M unit :=
  iso_path <- query (fun w => abspath w iso_path) ;;
  mount_point <- lift (get_mount_point home iso_path) ;;
  found <- query (fun w => os_path_exists w mount_point) ;;
  when (negb found)
    (print stdout (Msg.no_mount_point mount_point iso_path) ;; sys_exit 0) ;;
  mounted <- is_mounted mount_point ;;
  when (negb mounted)
    (print stderr (Msg.not_mounted iso_path mount_point) ;;
     empty <- exists_and_empty mount_point ;;
     when empty
       (try_except
          (call (Rmdir mount_point) (fun w => os_rmdir w mount_point) ;;
           print stdout (Msg.cleaned_empty_dir mount_point))
          (fun e => if is_OSError e then
                      Some (print stderr
                              (Msg.rmdir_failed mount_point (exn_text e)))
                    else None)) ;;
     sys_exit 0) ;;
  try_except
    (print stdout (Msg.attempting_unmount mount_point) ;;
     call (Run [lit "umount"; mount_point])
          (fun w => subprocess_run w [lit "umount"; mount_point]) ;;
     print stdout (Msg.unmounted mount_point) ;;
     empty <- exists_and_empty mount_point ;;
     if empty then
       try_except
         (call (Rmdir mount_point) (fun w => os_rmdir w mount_point) ;;
          print stdout (Msg.cleaned_mount_dir mount_point))
         (fun e => if is_OSError e then
                     Some (print stderr
                             (Msg.rmdir_failed mount_point (exn_text e)))
                   else None)
     else
       left <- query (fun w => os_path_exists w mount_point) ;;
       when left
         (print stdout (Msg.not_empty mount_point) ;;
          print stdout Msg.manual_cleanup))
    (fun e => match e with
              | CalledProcessError out err =>
                  Some (print stderr (Msg.unmount_failed mount_point out err) ;;
                        print stderr Msg.open_files_hint ;;
                        sys_exit 1)
              | FileNotFoundError _ =>
                  Some (print stderr Msg.no_umount_command ;; sys_exit 1)
              | _ => None
              end).

(** [main()], with [sys.argv] as its argument. *)
Definition main (argv : list str) : M unit :=
  when (length argv <? 3)%nat
    (print stderr Msg.usage ;;
     print stderr Msg.actions ;;
     sys_exit 1) ;;
  let action := nth 1 argv [] in
  let iso_path := nth 2 argv [] in
  if str_eqb action (lit "mount") then mount_iso iso_path
  else if str_eqb action (lit "unmount") then unmount_iso iso_path
  else (print stderr (Msg.unknown_action action) ;; sys_exit 1).

(** An execution from the world [w], with nothing logged yet. *)
Definition exec (m : M unit) (w : World) : result unit * state World :=
  m (St w []).

End Tool.

(** The exit status of the process: [sys.exit(n)] gives [n], an exception
    that nothing catches ends the interpreter with 1, a return with 0. *)
Definition exit_status (r : result unit) : Z :=
  match r with
  | Ok _ => 0
  | Raise (SystemExit code) => code
  | Raise _ => 1
  end.

(** ** A concrete system

    A small file system with a mount table and a search path, an instance
    of the interface on which executions can be run. *)

Module Toy.

Inductive kind := RegularFile | Directory.

Record machine := Machine {
  cwd : str;
  nodes : list (str * kind);      (* what exists, by absolute path *)
  mounts : list str;              (* the active mount points *)
  on_path : list str;             (* commands found on the search path *)
  no_exec : list str              (* found, but not executable *)
}.

Definition mem (p : str) (l : list str) : bool := existsb (str_eqb p) l.

Definition lookup (w : machine) (p : str) : option kind :=
  match find (fun n => str_eqb (fst n) p) (nodes w) with
  | Some n => Some (snd n)
  | None => None
  end.

Definition is_dir (w : machine) (p : str) : bool :=
  match lookup w p with Some Directory => true | _ => false end.

Definition is_file (w : machine) (p : str) : bool :=
  match lookup w p with Some RegularFile => true | _ => false end.

(** The name of [q] inside the directory [p], when [q] lies directly in it. *)
Definition child_name (p q : str) : option str :=
  let prefix := p ++ sep in
  let name := skipn (length prefix) q in
  if startswith q prefix && negb (is_nil name) && negb (existsb (Z.eqb chr_slash) name)
  then Some name else None.

Definition children (w : machine) (p : str) : list str :=
  flat_map (fun n => match child_name p (fst n) with
                     | Some name => [name]
                     | None => []
                     end) (nodes w).

Definition listdir (w : machine) (p : str) : result (list str) :=
  match lookup w p with
  | Some Directory => Ok (children w p)
  | Some RegularFile => Raise (OSError (lit "Not a directory"))
  | None => Raise (FileNotFoundError (lit "No such file or directory"))
  end.

Definition makedirs (w : machine) (p : str) : result unit * machine :=
  match lookup w p with
  | Some Directory => (Ok tt, w)
  | Some RegularFile => (Raise (OSError (lit "File exists")), w)
  | None =>
      (Ok tt, Machine (cwd w) (nodes w ++ [(p, Directory)]) (mounts w)
                    (on_path w) (no_exec w))
  end.

Definition rmdir (w : machine) (p : str) : result unit * machine :=
  match lookup w p with
  | Some Directory =>
      if mem p (mounts w) then (Raise (OSError (lit "Device or resource busy")), w)
      else if is_nil (children w p) then
        (Ok tt, Machine (cwd w)
                      (filter (fun n => negb (str_eqb (fst n) p)) (nodes w))
                      (mounts w) (on_path w) (no_exec w))
      else (Raise (OSError (lit "Directory not empty")), w)
  | Some RegularFile => (Raise (OSError (lit "Not a directory")), w)
  | None => (Raise (FileNotFoundError (lit "No such file or directory")), w)
  end.

(** Starting a command: it must be found and be executable. *)
Definition start (w : machine) (argv : list str) : result unit :=
  let cmd := hd [] argv in
  if negb (mem cmd (on_path w)) then
    Raise (FileNotFoundError (lit "No such file or directory"))
  else if mem cmd (no_exec w) then Raise (OSError (lit "Permission denied"))
  else Ok tt.

Definition set_mounts (w : machine) (m : list str) : machine :=
  Machine (cwd w) (nodes w) m (on_path w) (no_exec w).

(** [mount -o loop image dir] and [umount dir]; any other command succeeds
    and changes nothing. *)
Definition run (w : machine) (argv : list str) : result unit * machine :=
  match start w argv with
  | Raise e => (Raise e, w)
  | Ok _ =>
      match argv with
      | [cmd; _; _; image; dir] =>
          if str_eqb cmd (lit "mount") then
            if is_file w image && is_dir w dir && negb (mem dir (mounts w))
            then (Ok tt, set_mounts w (dir :: mounts w))
            else (Raise (CalledProcessError [] (lit "mount: failed to set up loop device")), w)
          else (Ok tt, w)
      | [cmd; dir] =>
          if str_eqb cmd (lit "umount") then
            if mem dir (mounts w)
            then (Ok tt, set_mounts w (filter (fun m => negb (str_eqb m dir)) (mounts w)))
            else (Raise (CalledProcessError [] (lit "umount: not mounted")), w)
          else (Ok tt, w)
      | _ => (Ok tt, w)
      end
  end.

Definition popen (w : machine) (argv : list str) : result unit * machine :=
  (start w argv, w).

#[export] Instance os : OS machine := {
  os_getcwd := cwd;
  os_path_exists w p := match lookup w p with Some _ => true | None => false end;
  os_path_isfile := is_file;
  os_path_ismount w p := mem p (mounts w);
  os_listdir := listdir;
  os_makedirs := makedirs;
  os_rmdir := rmdir;
  subprocess_run := run;
  subprocess_Popen := popen
}.

(** The examples stay within Latin-1, where the tables are written out;
    this instance closes the rest. *)
#[export] Instance unicode : UnicodeData := {
  ucd_isalnum := fun _ => false;
  ucd_lower := fun s => s
}.

Definition home : str := lit "/home/user".

Definition tools : list str := [lit "mount"; lit "umount"; lit "xdg-open"].

(** The mount point of [p], for building worlds. *)
Definition mount_point_of (p : str) : str :=
  match get_mount_point home p with Ok mp => mp | Raise _ => [] end.

End Toy.

(** ** Vocabulary of the statements *)

(** The character set [[A-Za-z0-9_.-]]. *)
Definition ascii_safe (c : Z) : bool :=
  ascii_isalnum c || (c =? chr_underscore) || (c =? chr_dot) || (c =? chr_dash).

(** A lower-case hexadecimal digit. *)
Definition is_hex_digit (c : Z) : bool :=
  ((48 <=? c) && (c <=? 57)) || ((97 <=? c) && (c <=? 102)).

(** The underscore substitution by structural recursion: an underscore is
    dropped when another one follows it. *)
Fixpoint collapse (s : str) : str :=
  match s with
  | [] => []
  | c :: t =>
      if (c =? chr_underscore)
         && match t with c' :: _ => c' =? chr_underscore | [] => false end
      then collapse t
      else c :: collapse t
  end.

(** The filename of [p] with its extension removed. *)
Definition stem (p : str) : str := fst (splitext (basename p)).

(** The first 8 hexadecimal characters of the SHA-256 digest of [bytes]. *)
Definition hash8 (bytes : list Z) : str :=
  flat_map SHA256.hex_byte (firstn 4 (SHA256.digest bytes)).

(** Where an event removes a directory, the directory exists and its
    listing is empty in the world the event happens in. *)
Definition rmdir_guarded {World : Type} {os : OS World} (we : World * event) : Prop :=
  match snd we with
  | Rmdir p => os_path_exists (fst we) p = true /\ os_listdir (fst we) p = Ok []
  | _ => True
  end.

(** An event that changes the file system or the mount table. *)
Definition is_action (e : event) : bool :=
  match e with
  | Print _ _ | Popen _ => false
  | Makedirs _ | Rmdir _ | Run _ => true
  end.

(** No two adjacent underscores. *)
Definition NoDouble (s : str) : Prop := forall a b, s <> a ++ lit "__" ++ b.

Section Guard.
Context {World : Type} {os : OS World}.

(** The directory [p] exists and lists nothing. *)
Definition empty_at (p : str) : World -> Prop :=
  fun w => os_path_exists w p = true /\ os_listdir w p = Ok [].

Definition anywhere : World -> Prop := fun _ => True.

(** Started in a world that satisfies [pre], [m] leaves every removal in
    the log guarded if every removal so far was. *)
Definition keeps {A} (pre : World -> Prop) (m : M World A) : Prop :=
  forall s, pre (world s) -> Forall rmdir_guarded (log s) ->
            Forall rmdir_guarded (log (snd (m s))).

End Guard.

(** ** Vocabulary of the further properties *)

(** Not the underscore. *)
Definition not_underscore (c : Z) : bool := negb (c =? chr_underscore).

(** The command lines that the tool passes to [subprocess]. *)
Definition mount_command (image dir : str) : list str :=
  [lit "mount"; lit "-o"; lit "loop"; image; dir].
Definition umount_command (dir : str) : list str := [lit "umount"; dir].
Definition browser_command (dir : str) : list str := [lit "xdg-open"; dir].

(** The outcomes of a launch that [open_in_file_manager] lets pass: the
    process started, or the program was not found. *)
Definition started_or_missing (r : result unit) : bool :=
  match r with
  | Ok _ | Raise (FileNotFoundError _) => true
  | Raise _ => false
  end.

(** The outcomes of [os.rmdir] that the cleanup lets pass: the directory
    was removed, or the system refused with an [OSError]. *)
Definition removed_or_refused (r : result unit) : bool :=
  match r with
  | Ok _ => true
  | Raise e => is_OSError e
  end.



(** What [unmount_iso] does besides printing: it runs [umount] on, and
    removes, the one directory [dir]. *)
Definition unmount_only (dir : str) (e : event) : Prop :=
  match e with
  | Print _ _ => True
  | Run argv => argv = umount_command dir
  | Rmdir p => p = dir
  | Makedirs _ | Popen _ => False
  end.

Definition is_run (e : event) : bool :=
  match e with Run _ => true | _ => false end.
Definition is_rmdir (e : event) : bool :=
  match e with Rmdir _ => true | _ => false end.
Definition is_makedirs (e : event) : bool :=
  match e with Makedirs _ => true | _ => false end.
Definition is_popen (e : event) : bool :=
  match e with Popen _ => true | _ => false end.

(** How many events of a kind an execution has logged. *)
Definition count {World : Type} (kind : event -> bool) (s : state World) : nat :=
  length (filter kind (map snd (log s))).

(** The events of [mount_iso] up to and with the call of [mount]: the two
    directories are asked for in [w] and [w1], the command is run in [w2]. *)
Definition mount_attempt {World : Type} (home : str) (w w1 w2 : World)
           (image dir : str) : list (World * event) :=
  [(w, Makedirs (BASE_MOUNT_DIR home));
   (w1, Makedirs dir);
   (w2, Print stdout (Msg.attempting_mount image dir));
   (w2, Run (mount_command image dir))].

(** Worlds of the concrete system that the examples run in. *)
Module Scenario.
Import Toy.

Definition image : str := lit "/data/a.iso".
Definition image_dir : str := mount_point_of image.
Definition ubuntu : str := lit "/data/Ubuntu-22.04.iso".

(** A path whose name holds the byte 0xFF, as the interpreter decodes it
    from the command line: the lone surrogate U+DCFF. *)
Definition undecodable : str := [0xDCFF] ++ lit ".iso".

(** Nothing but the tools. *)
Definition bare : machine := Machine (lit "/") [] [] tools [].

(** A directory and no image. *)
Definition has_dir : machine :=
  Machine (lit "/") [(lit "/tmp", Directory)] [] tools [].

(** The image on disk, not mounted. *)
Definition with_image : machine :=
  Machine (lit "/data") [(image, RegularFile)] [] tools [].

(** The image mounted at its mount point; [blocked] lists the tools that
    may not be executed. *)
Definition mounted_image (blocked : list str) : machine :=
  Machine (lit "/data")
          [(image, RegularFile); (BASE_MOUNT_DIR home, Directory);
           (image_dir, Directory)]
          [image_dir] tools blocked.

(** A directory that carries the name of the image. *)
Definition image_is_dir : machine :=
  Machine (lit "/data") [(image, Directory)] [] tools [].

(** A mount directory left behind, empty and not mounted. *)
Definition stale_dir : machine :=
  Machine (lit "/data")
          [(BASE_MOUNT_DIR home, Directory); (image_dir, Directory)] [] tools [].

(** [BASE_MOUNT_DIR] taken by a regular file. *)
Definition base_is_file : machine :=
  Machine (lit "/data")
          [(image, RegularFile); (BASE_MOUNT_DIR home, RegularFile)] [] tools [].

(** The mount point of the image taken by a regular file. *)
Definition dir_is_file : machine :=
  Machine (lit "/data")
          [(image, RegularFile); (BASE_MOUNT_DIR home, Directory);
           (image_dir, RegularFile)] [] tools [].

(** The image on disk and no [mount] program. *)
Definition no_mount_tool : machine :=
  Machine (lit "/data") [(image, RegularFile)] []
          [lit "umount"; lit "xdg-open"] [].

(** The image mounted and no [umount] program. *)
Definition no_umount_tool : machine :=
  Machine (lit "/data")
          [(image, RegularFile); (BASE_MOUNT_DIR home, Directory);
           (image_dir, Directory)]
          [image_dir] [lit "mount"; lit "xdg-open"] [].

(** After [os.makedirs] on [BASE_MOUNT_DIR], and then on the mount point
    of the image. *)
Definition with_base (w : machine) : machine :=
  snd (makedirs w (BASE_MOUNT_DIR home)).
Definition with_dirs (w : machine) : machine :=
  snd (makedirs (with_base w) image_dir).

End Scenario.

(** ** Proof automation *)

(** One step of an execution whose next query is answered by a hypothesis. *)
Ltac run :=
  cbv beta iota zeta delta
    [exec mount_iso unmount_iso main bind query when print emit sys_exit raise
     ret lift is_mounted call try_except open_in_file_manager exists_and_empty
     world log negb app].

(** A closed statement decided by evaluation. *)
Ltac by_computation :=
  cbv zeta; repeat match goal with |- _ /\ _ => split end;
  vm_compute; reflexivity.

(** * Strings *)

Lemma str_eqb_eq (a b : str) : str_eqb a b = true <-> a = b.
Proof. unfold str_eqb. destruct (list_eq_dec Z.eq_dec a b); split; congruence. Qed.

(** The code points that [strip('_')] removes. *)
Lemma in_underscore (c : Z) : existsb (Z.eqb c) (lit "_") = (c =? chr_underscore).
Proof. simpl. apply orb_false_r. Qed.

Lemma lstrip_suffix (s chars : str) : exists pre, s = pre ++ lstrip s chars.
Proof.
  induction s as [|c t [pre IH]]; [now exists []|].
  simpl. destruct (existsb (Z.eqb c) chars).
  - exists (c :: pre). simpl. now f_equal.
  - now exists [].
Qed.

Lemma lstrip_head (s chars : str) (c : Z) (t : str) :
  lstrip s chars = c :: t -> existsb (Z.eqb c) chars = false.
Proof.
  induction s as [|d s IH]; simpl; [discriminate|].
  destruct (existsb (Z.eqb d) chars) eqn:Hd; [exact IH|].
  intros H. injection H as -> _. exact Hd.
Qed.

Lemma lstrip_id (s chars : str) :
  match s with c :: _ => existsb (Z.eqb c) chars = false | [] => True end ->
  lstrip s chars = s.
Proof. destruct s as [|c t]; simpl; [reflexivity|]. now intros ->. Qed.

Lemma rstrip_prefix (s chars : str) : exists post, s = rstrip s chars ++ post.
Proof.
  unfold rstrip. destruct (lstrip_suffix (rev s) chars) as [pre H].
  exists (rev pre). rewrite <- rev_app_distr, <- H. now rewrite rev_involutive.
Qed.

Lemma rstrip_last (s chars : str) (c : Z) (t : str) :
  rstrip s chars = t ++ [c] -> existsb (Z.eqb c) chars = false.
Proof.
  unfold rstrip. intros H.
  apply (f_equal (@rev Z)) in H. rewrite rev_involutive, rev_app_distr in H.
  simpl in H. exact (lstrip_head _ _ _ _ H).
Qed.

Lemma rstrip_id (s chars : str) :
  (forall t c, s = t ++ [c] -> existsb (Z.eqb c) chars = false) ->
  rstrip s chars = s.
Proof.
  intros H. unfold rstrip. rewrite lstrip_id; [apply rev_involutive|].
  destruct (rev s) as [|c r] eqn:Hr; [exact I|].
  apply (H (rev r) c). rewrite <- (rev_involutive s), Hr. reflexivity.
Qed.

Lemma lstrip_app_clean (x h chars : str) :
  match h with c :: _ => existsb (Z.eqb c) chars = false | [] => False end ->
  exists pre, lstrip (x ++ h) chars = pre ++ h.
Proof.
  intros Hh. induction x as [|c x [pre IH]].
  - exists []. destruct h as [|c h]; [contradiction|]. simpl. now rewrite Hh.
  - simpl. destruct (existsb (Z.eqb c) chars); [now exists pre|].
    now exists (c :: x).
Qed.

Lemma rstrip_app_clean (y h chars : str) :
  h <> [] -> Forall (fun c => existsb (Z.eqb c) chars = false) h ->
  rstrip (y ++ h) chars = y ++ h.
Proof.
  intros Hne Hh. apply rstrip_id. intros t c E.
  destruct (exists_last Hne) as [h0 [l Hl]]. subst h.
  rewrite app_assoc in E. apply app_inj_tail in E as [_ <-].
  apply Forall_app in Hh as [_ Hh]. now inversion Hh.
Qed.

Lemma strip_Forall (P : Z -> Prop) (s chars : str) :
  Forall P s -> Forall P (strip s chars).
Proof.
  intros H. unfold strip.
  destruct (lstrip_suffix s chars) as [pre Hp].
  destruct (rstrip_prefix (lstrip s chars) chars) as [post Hq].
  rewrite Hp, Hq in H.
  apply Forall_app in H as [_ H]. now apply Forall_app in H as [H _].
Qed.

Lemma strip_no_leading (s : str) (c : Z) (t : str) :
  strip s (lit "_") = c :: t -> c <> chr_underscore.
Proof.
  unfold strip. intros H.
  destruct (rstrip_prefix (lstrip s (lit "_")) (lit "_")) as [post Hq].
  rewrite H in Hq. simpl in Hq. apply lstrip_head in Hq.
  rewrite in_underscore in Hq. now apply Z.eqb_neq.
Qed.

Lemma strip_no_trailing (s : str) (c : Z) (t : str) :
  strip s (lit "_") = t ++ [c] -> c <> chr_underscore.
Proof.
  unfold strip. intros H. apply rstrip_last in H.
  rewrite in_underscore in H. now apply Z.eqb_neq.
Qed.

Lemma strip_id (s : str) :
  (forall t, s <> chr_underscore :: t) -> (forall t, s <> t ++ [chr_underscore]) ->
  strip s (lit "_") = s.
Proof.
  intros Hl Hr. unfold strip.
  rewrite (lstrip_id s).
  - apply rstrip_id. intros t c ->. rewrite in_underscore.
    apply Z.eqb_neq. intros ->. exact (Hr t eq_refl).
  - destruct s as [|c t]; [exact I|]. rewrite in_underscore.
    apply Z.eqb_neq. intros ->. exact (Hl t eq_refl).
Qed.

(** * The underscore substitution *)

Lemma underscore_run_cons (c : Z) (t : str) :
  underscore_run (c :: t)
  = if c =? chr_underscore then S (underscore_run t) else O.
Proof. reflexivity. Qed.

Lemma collapse_run (t : str) :
  (1 <= underscore_run t)%nat ->
  collapse (chr_underscore :: t)
  = chr_underscore :: collapse (skipn (underscore_run t) t).
Proof.
  induction t as [|c t IH]; intros Hrun.
  - simpl in Hrun. lia.
  - rewrite underscore_run_cons in *.
    destruct (c =? chr_underscore) eqn:Hc; [|lia].
    apply Z.eqb_eq in Hc. subst c.
    change (collapse (chr_underscore :: chr_underscore :: t))
      with (collapse (chr_underscore :: t)).
    change (skipn (S (underscore_run t)) (chr_underscore :: t))
      with (skipn (underscore_run t) t).
    destruct (underscore_run t) as [|k] eqn:Hk.
    + destruct t as [|d t]; [reflexivity|].
      rewrite underscore_run_cons in Hk.
      destruct (d =? chr_underscore) eqn:Hd; [discriminate|].
      simpl. rewrite Hd. reflexivity.
    + apply IH. lia.
Qed.

(** The scan of the regular expression and the structural recursion write
    the same string. *)
Lemma sub_underscore_runs_collapse (s : str) : sub_underscore_runs s = collapse s.
Proof.
  funelim (sub_underscore_runs s).
  - reflexivity.
  - rewrite H. rewrite underscore_run_cons in Heq.
    destruct (c =? chr_underscore) eqn:Hc; [|discriminate].
    apply Z.eqb_eq in Hc. subst c.
    symmetry. apply collapse_run.
    apply Nat.leb_le in Heq. lia.
  - rewrite H. rewrite underscore_run_cons in Heq.
    simpl. destruct (c =? chr_underscore) eqn:Hc; [|reflexivity].
    destruct t as [|d t]; [reflexivity|].
    rewrite underscore_run_cons in Heq.
    destruct (d =? chr_underscore) eqn:Hd; [discriminate|reflexivity].
Qed.

Lemma NoDouble_tail (c : Z) (t : str) : NoDouble (c :: t) -> NoDouble t.
Proof. intros H a b E. apply (H (c :: a) b). simpl. now f_equal. Qed.

Lemma NoDouble_app_l (x y : str) : NoDouble (x ++ y) -> NoDouble x.
Proof.
  intros H a b E. apply (H a (b ++ y)). rewrite E.
  now rewrite <- !app_assoc.
Qed.

Lemma NoDouble_app_r (x y : str) : NoDouble (x ++ y) -> NoDouble y.
Proof.
  intros H a b E. apply (H (x ++ a) b). rewrite E. now rewrite <- app_assoc.
Qed.

Lemma collapse_head (s : str) :
  match s with
  | [] => collapse s = []
  | c :: _ => exists r, collapse s = c :: r
  end.
Proof.
  induction s as [|c t IH]; [reflexivity|].
  simpl. destruct (c =? chr_underscore) eqn:Hc; simpl; [|now eexists].
  destruct t as [|d t]; [now eexists|].
  destruct (d =? chr_underscore) eqn:Hd; [|now eexists].
  apply Z.eqb_eq in Hc, Hd. subst. exact IH.
Qed.

Lemma collapse_NoDouble (s : str) : NoDouble (collapse s).
Proof.
  induction s as [|c t IH]; intros a b E.
  - destruct a; discriminate.
  - simpl in E.
    destruct ((c =? chr_underscore)
              && match t with c' :: _ => c' =? chr_underscore | [] => false end) eqn:G.
    + exact (IH a b E).
    + destruct a as [|x a]; simpl in E.
      * injection E as -> E.
        pose proof (collapse_head t) as Hh.
        destruct t as [|d t]; [rewrite Hh in E; discriminate|].
        destruct Hh as [r Hr]. rewrite Hr in E. injection E as -> _.
        discriminate.
      * injection E as _ E. exact (IH a b E).
Qed.

Lemma collapse_id (s : str) : NoDouble s -> collapse s = s.
Proof.
  induction s as [|c t IH]; intros H; [reflexivity|].
  simpl.
  destruct ((c =? chr_underscore)
            && match t with c' :: _ => c' =? chr_underscore | [] => false end) eqn:G.
  - exfalso. apply andb_prop in G as [Hc G].
    destruct t as [|d t]; [discriminate|].
    apply Z.eqb_eq in Hc, G. subst. exact (H [] t eq_refl).
  - f_equal. apply IH. exact (NoDouble_tail _ _ H).
Qed.

Lemma collapse_Forall (P : Z -> Prop) (s : str) :
  Forall P s -> Forall P (collapse s).
Proof.
  induction 1 as [|c t Hc Ht IH]; simpl; [constructor|].
  destruct ((c =? chr_underscore)
            && match t with c' :: _ => c' =? chr_underscore | [] => false end);
    [exact IH | now constructor].
Qed.

Lemma collapse_clean (h : str) :
  Forall (fun c => c <> chr_underscore) h -> collapse h = h.
Proof.
  induction 1 as [|c t Hc _ IH]; [reflexivity|].
  simpl. apply Z.eqb_neq in Hc. rewrite Hc. simpl. now rewrite IH.
Qed.

Lemma collapse_app_clean (x h : str) :
  Forall (fun c => c <> chr_underscore) h ->
  exists pre, collapse (x ++ h) = pre ++ h.
Proof.
  intros Hh. induction x as [|c x [pre IH]].
  - exists []. now apply collapse_clean.
  - simpl. destruct (_ && _); rewrite IH; [now exists pre | now exists (c :: pre)].
Qed.

Lemma strip_NoDouble (s chars : str) : NoDouble s -> NoDouble (strip s chars).
Proof.
  intros H. unfold strip.
  destruct (lstrip_suffix s chars) as [pre Hp].
  destruct (rstrip_prefix (lstrip s chars) chars) as [post Hq].
  rewrite Hp, Hq in H.
  exact (NoDouble_app_l _ _ (NoDouble_app_r _ _ H)).
Qed.

(** * [sanitize_filename] *)

Section SanitizeFacts.
Context {U : UnicodeData}.

Lemma in_keep_class_underscore : in_keep_class chr_underscore = true.
Proof. reflexivity. Qed.

(** On ASCII the class that is kept is [[A-Za-z0-9_.-]]. *)
Lemma in_keep_class_ascii (c : Z) : c < 128 -> in_keep_class c = ascii_safe c.
Proof.
  intros H. unfold in_keep_class, is_word, Py_UNICODE_ISALNUM, ascii_safe.
  apply Z.ltb_lt in H. now rewrite H.
Qed.

Lemma in_keep_class_high (c : Z) :
  128 <= c -> in_keep_class c = true -> is_word c = true.
Proof.
  intros H. unfold in_keep_class, chr_dot, chr_dash.
  destruct (is_word c); [reflexivity|]. simpl.
  destruct (Z.eqb_spec c 46); [lia|]. destruct (Z.eqb_spec c 45); [lia|].
  discriminate.
Qed.

Lemma sub_non_word_Forall (P : Z -> Prop) (s : str) :
  (forall c, In c s -> in_keep_class c = true -> P c) -> P chr_underscore ->
  Forall P (sub_non_word s).
Proof.
  intros Hk Hu. unfold sub_non_word. apply Forall_forall. intros x Hx.
  apply in_map_iff in Hx as [c [<- Hc]].
  destruct (in_keep_class c) eqn:E; [now apply Hk | exact Hu].
Qed.

Lemma sub_non_word_id (s : str) :
  Forall (fun c => in_keep_class c = true) s -> sub_non_word s = s.
Proof.
  induction 1 as [|c t Hc _ IH]; [reflexivity|].
  unfold sub_non_word in *. simpl. now rewrite Hc, IH.
Qed.

Lemma sanitize_filename_collapse (s : str) :
  sanitize_filename s = strip (collapse (sub_non_word s)) (lit "_").
Proof. unfold sanitize_filename. now rewrite sub_underscore_runs_collapse. Qed.

(** What holds of the underscore and of every kept character of the input
    holds of every character of the output. *)
Lemma sanitize_filename_Forall (P : Z -> Prop) (s : str) :
  (forall c, In c s -> in_keep_class c = true -> P c) -> P chr_underscore ->
  Forall P (sanitize_filename s).
Proof.
  intros Hk Hu. rewrite sanitize_filename_collapse.
  apply strip_Forall, collapse_Forall, sub_non_word_Forall; assumption.
Qed.

Lemma sanitize_filename_NoDouble (s : str) : NoDouble (sanitize_filename s).
Proof.
  rewrite sanitize_filename_collapse. apply strip_NoDouble, collapse_NoDouble.
Qed.

Lemma sanitize_filename_no_leading (s t : str) :
  sanitize_filename s <> chr_underscore :: t.
Proof.
  intros E. rewrite sanitize_filename_collapse in E.
  now apply strip_no_leading in E.
Qed.

Lemma sanitize_filename_no_trailing (s t : str) :
  sanitize_filename s <> t ++ [chr_underscore].
Proof.
  intros E. rewrite sanitize_filename_collapse in E.
  now apply strip_no_trailing in E.
Qed.

Lemma sanitize_filename_no_slash (s : str) : ~ In chr_slash (sanitize_filename s).
Proof.
  assert (H : Forall (fun c => c <> chr_slash) (sanitize_filename s)).
  { apply sanitize_filename_Forall; [|discriminate].
    intros c _ Hk ->. discriminate. }
  rewrite Forall_forall in H. intros Hin. now apply (H _ Hin).
Qed.

(** On an ASCII input the output stays within [[A-Za-z0-9_.-]]. *)
Lemma sanitize_filename_ascii (s : str) :
  Forall (fun c => c < 128) s ->
  Forall (fun c => ascii_safe c = true) (sanitize_filename s).
Proof.
  intros Ha. apply sanitize_filename_Forall; [|reflexivity].
  intros c Hin Hk. rewrite Forall_forall in Ha.
  now rewrite <- in_keep_class_ascii by auto.
Qed.

(** C2, as the code has it.  Every character of [sanitize_filename s] is
    in [[A-Za-z0-9_.-]], or is a character of [s] outside ASCII that [\w]
    matches; the result has no two adjacent underscores, and neither starts
    nor ends with an underscore.  This holds of every [s], the empty string
    and strings of special characters included. *)
Theorem sanitize_filename_shape (s : str) :
  Forall (fun c => ascii_safe c = true
                   \/ (128 <= c /\ is_word c = true /\ In c s))
         (sanitize_filename s)
  /\ (forall a b, sanitize_filename s <> a ++ lit "__" ++ b)
  /\ (forall t, sanitize_filename s <> chr_underscore :: t)
  /\ (forall t, sanitize_filename s <> t ++ [chr_underscore]).
Proof.
  split; [|split; [|split]].
  - apply sanitize_filename_Forall; [|now left].
    intros c Hin Hk. destruct (Z.lt_ge_cases c 128) as [Hlt|Hge].
    + left. now rewrite <- in_keep_class_ascii.
    + right. split; [exact Hge|]. split; [now apply in_keep_class_high | exact Hin].
  - exact (sanitize_filename_NoDouble s).
  - exact (sanitize_filename_no_leading s).
  - exact (sanitize_filename_no_trailing s).
Qed.

(** C9.  Sanitizing a sanitized name changes nothing. *)
Theorem sanitize_filename_idempotent (s : str) :
  sanitize_filename (sanitize_filename s) = sanitize_filename s.
Proof.
  assert (Hk : Forall (fun c => in_keep_class c = true) (sanitize_filename s))
    by (apply sanitize_filename_Forall; auto using in_keep_class_underscore).
  rewrite (sanitize_filename_collapse (sanitize_filename s)).
  rewrite (sub_non_word_id _ Hk), (collapse_id _ (sanitize_filename_NoDouble s)).
  apply strip_id.
  - exact (sanitize_filename_no_leading s).
  - exact (sanitize_filename_no_trailing s).
Qed.

End SanitizeFacts.

(** C2 as stated fails: the letter U+00E9 is a word character, so it is
    kept, and it is not in [[A-Za-z0-9_.-]]. *)
Lemma sanitize_filename_keeps_e_acute :
  @sanitize_filename Toy.unicode [0xE9] = [0xE9] /\ ascii_safe 0xE9 = false.
Proof. by_computation. Qed.

(** The tables beyond Latin-1 play no part on a Latin-1 string. *)
Lemma sanitize_filename_latin1 (U1 U2 : UnicodeData) (s : str) :
  Forall (fun c => c < 256) s ->
  @sanitize_filename U1 s = @sanitize_filename U2 s.
Proof.
  intros H. unfold sanitize_filename. do 2 f_equal.
  unfold sub_non_word. apply map_ext_in. intros c Hc.
  rewrite Forall_forall in H. specialize (H c Hc).
  unfold in_keep_class, is_word, Py_UNICODE_ISALNUM.
  destruct (c <? 128); [reflexivity|].
  apply Z.ltb_lt in H. now rewrite H.
Qed.

Example sanitize_filename_examples :
  @sanitize_filename Toy.unicode (lit "a__b") = lit "a_b"
  /\ @sanitize_filename Toy.unicode (lit "_a_") = lit "a"
  /\ @sanitize_filename Toy.unicode (lit "my file (1).iso") = lit "my_file_1_.iso"
  /\ @sanitize_filename Toy.unicode (lit "///") = []
  /\ @sanitize_filename Toy.unicode [] = [].
Proof. by_computation. Qed.

(** * The hash *)

Lemma hexdigit_hex n : 0 <= n < 16 -> is_hex_digit (SHA256.hexdigit n) = true.
Proof.
  intros H. unfold SHA256.hexdigit, is_hex_digit.
  destruct (Z.ltb_spec n 10); apply orb_true_iff; [left | right];
    apply andb_true_iff; split; apply Z.leb_le; lia.
Qed.

Lemma hex_byte_hex b :
  0 <= b < 256 -> Forall (fun c => is_hex_digit c = true) (SHA256.hex_byte b).
Proof.
  intros H. unfold SHA256.hex_byte.
  repeat constructor; apply hexdigit_hex.
  - split; [apply Z.div_pos; lia | apply Z.div_lt_upper_bound; lia].
  - apply Z.mod_pos_bound. lia.
Qed.

Lemma be32_bytes w : Forall (fun b => 0 <= b < 256) (SHA256.be32 w).
Proof. unfold SHA256.be32. repeat constructor; apply Z.mod_pos_bound; lia. Qed.

Lemma digest_bytes m :
  length (SHA256.digest m) = 32%nat
  /\ Forall (fun b => 0 <= b < 256) (SHA256.digest m).
Proof.
  unfold SHA256.digest. set (h := SHA256.absorb _ _ _). split.
  - reflexivity.
  - repeat (apply Forall_app; split); apply be32_bytes.
Qed.

Lemma flat_map_hex_byte bs :
  Forall (fun b => 0 <= b < 256) bs ->
  length (flat_map SHA256.hex_byte bs) = (2 * length bs)%nat
  /\ Forall (fun c => is_hex_digit c = true) (flat_map SHA256.hex_byte bs).
Proof.
  induction 1 as [|b bs Hb _ [IHl IHf]]; [split; [reflexivity | constructor]|].
  split.
  - simpl. simpl in IHl. rewrite IHl. lia.
  - change (flat_map SHA256.hex_byte (b :: bs))
      with (SHA256.hex_byte b ++ flat_map SHA256.hex_byte bs).
    apply Forall_app. split; [now apply hex_byte_hex | exact IHf].
Qed.

(** The digest in hexadecimal is 64 lower-case hexadecimal digits. *)
Lemma hexdigest_shape m :
  length (SHA256.hexdigest m) = 64%nat
  /\ Forall (fun c => is_hex_digit c = true) (SHA256.hexdigest m).
Proof.
  destruct (digest_bytes m) as [Hl Hb].
  destruct (flat_map_hex_byte _ Hb) as [Hl' Hf].
  split; [|exact Hf]. unfold SHA256.hexdigest. rewrite Hl', Hl. reflexivity.
Qed.

(** [hexdigest()[:8]] is the hexadecimal form of the first four bytes. *)
Lemma hexdigest_slice_hash8 m : slice_to (SHA256.hexdigest m) 8 = hash8 m.
Proof.
  unfold hash8, SHA256.hexdigest, SHA256.digest, slice_to.
  set (h := SHA256.absorb _ _ _). reflexivity.
Qed.

Lemma hash8_shape m :
  length (hash8 m) = 8%nat /\ Forall (fun c => is_hex_digit c = true) (hash8 m).
Proof.
  assert (Hb : Forall (fun b => 0 <= b < 256) (firstn 4 (SHA256.digest m))).
  { destruct (digest_bytes m) as [_ H].
    rewrite <- (firstn_skipn 4 (SHA256.digest m)) in H.
    now apply Forall_app in H as [H _]. }
  destruct (flat_map_hex_byte _ Hb) as [Hl Hf]. split; [|exact Hf].
  unfold hash8. rewrite Hl, length_firstn.
  destruct (digest_bytes m) as [-> _]. reflexivity.
Qed.

Lemma hex_digit_facts c :
  is_hex_digit c = true ->
  c <> chr_underscore /\ c < 128 /\ ascii_safe c = true.
Proof.
  unfold is_hex_digit, ascii_safe, ascii_isalnum, chr_underscore. intros H.
  apply orb_true_iff in H as [H|H]; apply andb_true_iff in H as [H1 H2];
    apply Z.leb_le in H1, H2; (split; [lia|split; [lia|]]).
  - replace ((48 <=? c) && (c <=? 57)) with true; [reflexivity|].
    symmetry. apply andb_true_iff. split; apply Z.leb_le; lia.
  - replace ((97 <=? c) && (c <=? 122)) with true;
      [now rewrite !orb_true_r|].
    symmetry. apply andb_true_iff. split; apply Z.leb_le; lia.
Qed.

Section HashSuffix.
Context {U : UnicodeData}.

(** A non-empty run of hexadecimal digits at the end of the name survives
    the sanitization. *)
Lemma sanitize_filename_keeps_suffix (name h : str) :
  h <> [] -> Forall (fun c => is_hex_digit c = true) h ->
  exists pre, sanitize_filename (name ++ lit "_" ++ h) = pre ++ h.
Proof.
  intros Hne Hh.
  assert (Hu : Forall (fun c => c <> chr_underscore) h).
  { eapply Forall_impl; [|exact Hh]. intros c Hc. now apply hex_digit_facts. }
  assert (Hk : Forall (fun c => in_keep_class c = true) h).
  { eapply Forall_impl; [|exact Hh]. intros c Hc.
    destruct (hex_digit_facts c Hc) as (_ & Hlt & Hs).
    now rewrite in_keep_class_ascii. }
  rewrite sanitize_filename_collapse.
  unfold sub_non_word. rewrite app_assoc, map_app.
  fold (sub_non_word h). rewrite (sub_non_word_id h Hk).
  destruct (collapse_app_clean (map (fun c => if in_keep_class c then c else chr_underscore)
                                    (name ++ lit "_")) h Hu) as [p1 ->].
  unfold strip.
  destruct (lstrip_app_clean p1 h (lit "_")) as [p2 ->].
  { destruct h as [|c h]; [now apply Hne|]. rewrite in_underscore.
    apply Z.eqb_neq. now inversion Hu. }
  exists p2. apply rstrip_app_clean; [exact Hne|].
  eapply Forall_impl; [|exact Hu]. intros c Hc. rewrite in_underscore.
  now apply Z.eqb_neq.
Qed.

End HashSuffix.

(** * Paths and the mount point *)

Lemma startswith_sep_false name :
  ~ In chr_slash name -> startswith name sep = false.
Proof.
  destruct name as [|c t]; [reflexivity|]. intros H.
  change (startswith (c :: t) sep) with ((47 =? c) && true).
  destruct (Z.eqb_spec 47 c) as [E|]; [|reflexivity].
  exfalso. apply H. left. now rewrite <- E.
Qed.

Lemma BASE_MOUNT_DIR_shape home :
  exists y, BASE_MOUNT_DIR home = y ++ lit ".iso_mounts".
Proof.
  unfold BASE_MOUNT_DIR, join.
  replace (startswith (lit ".iso_mounts") sep) with false by reflexivity.
  destruct (_ || _); [now exists home|].
  exists (home ++ sep). now rewrite <- app_assoc.
Qed.

Lemma BASE_MOUNT_DIR_no_trailing_sep home :
  BASE_MOUNT_DIR home <> [] /\ endswith (BASE_MOUNT_DIR home) sep = false.
Proof.
  destruct (BASE_MOUNT_DIR_shape home) as [y ->]. split.
  - intros E. apply app_eq_nil in E as [_ E]. discriminate.
  - unfold endswith. rewrite rev_app_distr. reflexivity.
Qed.

Lemma join_child base name :
  base <> [] -> endswith base sep = false -> ~ In chr_slash name ->
  join base name = base ++ sep ++ name.
Proof.
  intros Hne He Hn. unfold join.
  rewrite (startswith_sep_false _ Hn), He.
  destruct base; [contradiction | reflexivity].
Qed.

Lemma rfind_from_absent c s i last :
  ~ In c s -> rfind_from c s i last = last.
Proof.
  revert i last. induction s as [|x t IH]; intros i last H; [reflexivity|].
  simpl. destruct (Z.eqb_spec x c) as [->|_].
  - exfalso. apply H. now left.
  - apply IH. intros Hin. apply H. now right.
Qed.

Lemma rfind_from_last c a n i last :
  ~ In c n -> rfind_from c (a ++ c :: n) i last = i + Z.of_nat (length a).
Proof.
  intros Hn. revert i last. induction a as [|x a IH]; intros i last.
  - simpl. rewrite Z.eqb_refl, rfind_from_absent by exact Hn. lia.
  - simpl app. simpl rfind_from. rewrite IH. simpl length. lia.
Qed.

Lemma basename_child base name :
  ~ In chr_slash name -> basename (base ++ sep ++ name) = name.
Proof.
  intros Hn. unfold basename, rfind, slice_from.
  change (base ++ sep ++ name) with (base ++ chr_slash :: name).
  rewrite rfind_from_last by exact Hn.
  replace (Z.to_nat (0 + Z.of_nat (length base) + 1)) with (length base + 1)%nat by lia.
  rewrite skipn_app.
  rewrite skipn_all2 by lia.
  replace (length base + 1 - length base)%nat with 1%nat by lia. reflexivity.
Qed.

Lemma splitext_app p : fst (splitext p) ++ snd (splitext p) = p.
Proof.
  unfold splitext. destruct (_ && _); simpl.
  - apply firstn_skipn.
  - apply app_nil_r.
Qed.

Lemma last_occurrence (c : Z) (p : str) :
  In c p -> exists a n, p = a ++ c :: n /\ ~ In c n.
Proof.
  induction p as [|x p IH]; [contradiction|].
  intros H. destruct (in_dec Z.eq_dec c p) as [Hin|Hout].
  - destruct (IH Hin) as (a & n & -> & Hn). now exists (x :: a), n.
  - destruct H as [->|H]; [|contradiction]. now exists [], p.
Qed.

(** A path is its directory part, with the last separator, and its
    filename, which holds no separator. *)
Lemma basename_split (p : str) :
  ~ In chr_slash (basename p)
  /\ (basename p = p \/ exists a, p = a ++ sep ++ basename p).
Proof.
  destruct (in_dec Z.eq_dec chr_slash p) as [Hin|Hout].
  - destruct (last_occurrence _ _ Hin) as (a & n & -> & Hn).
    change (a ++ chr_slash :: n) with (a ++ sep ++ n).
    rewrite (basename_child a n Hn). split; [exact Hn|]. right. now exists a.
  - assert (E : basename p = p).
    { unfold basename, rfind. now rewrite rfind_from_absent. }
    rewrite E. split; [exact Hout | now left].
Qed.

Lemma startswith_before_sep (u v y : str) :
  ~ In chr_slash y -> startswith (u ++ chr_slash :: v) y = startswith u y.
Proof.
  revert u. induction y as [|a y IH]; intros u Hy; [reflexivity|].
  destruct u as [|b u]; simpl.
  - destruct (Z.eqb_spec a chr_slash) as [->|_]; [|reflexivity].
    exfalso. apply Hy. now left.
  - rewrite IH; [reflexivity|]. intros H. apply Hy. now right.
Qed.

(** A suffix without a separator is a suffix of the filename. *)
Lemma endswith_basename (p x : str) :
  ~ In chr_slash x -> endswith p x = endswith (basename p) x.
Proof.
  intros Hx. destruct (basename_split p) as [_ [E|[a E]]]; [now rewrite E|].
  rewrite E at 1. unfold endswith.
  rewrite rev_app_distr. change (rev (sep ++ basename p)) with (rev (chr_slash :: basename p)).
  simpl rev. rewrite <- app_assoc. simpl app.
  apply startswith_before_sep. now rewrite <- in_rev.
Qed.

Lemma is_ascii_app (a b : str) : is_ascii (a ++ b) = is_ascii a && is_ascii b.
Proof. unfold is_ascii. apply forallb_app. Qed.

Lemma ascii_lower_slash (c : Z) : ascii_lower c = chr_slash <-> c = chr_slash.
Proof.
  unfold ascii_lower, chr_slash.
  destruct (Z.leb_spec 65 c), (Z.leb_spec c 90); simpl; lia.
Qed.

(** The extension test reads the filename: on an ASCII path, the path ends
    with [.iso] in some letter case exactly when its filename does. *)
Lemma iso_suffix_of_filename {U : UnicodeData} (p : str) :
  is_ascii p = true ->
  endswith (lower p) (lit ".iso") = endswith (lower (basename p)) (lit ".iso").
Proof.
  intros Ha. destruct (basename_split p) as [Hb [E|[a E]]]; [now rewrite E|].
  assert (Hab : is_ascii (basename p) = true).
  { rewrite E, !is_ascii_app in Ha. now apply andb_prop in Ha as [_ Ha'%andb_prop]. }
  unfold lower. rewrite Ha, Hab. rewrite E at 1.
  rewrite !map_app. change (map ascii_lower sep) with sep.
  unfold endswith. rewrite rev_app_distr.
  change (sep ++ map ascii_lower (basename p))
    with (chr_slash :: map ascii_lower (basename p)).
  simpl rev. rewrite <- app_assoc. simpl app.
  apply startswith_before_sep. now vm_compute; intuition discriminate.
Qed.

(** A string of Unicode scalar values has a UTF-8 encoding. *)
Lemma encode_total s :
  Forall (fun c => 0 <= c < 0x110000 /\ ~ (0xD800 <= c <= 0xDFFF)) s ->
  exists bytes, encode s = Some bytes.
Proof.
  induction 1 as [|c t [Hr Hs] _ [bs IH]]; [now exists []|].
  simpl. rewrite IH. unfold utf8_char.
  destruct (Z.ltb_spec c 0); [lia|].
  destruct (Z.ltb_spec c 128); [now eexists|].
  destruct (Z.ltb_spec c 2048); [now eexists|].
  destruct (Z.leb_spec 55296 c), (Z.leb_spec c 57343); simpl; try lia;
    (destruct (Z.ltb_spec c 65536); [now eexists|]);
    (destruct (Z.ltb_spec c 1114112); [now eexists | lia]).
Qed.

Section MountPointFacts.
Context {U : UnicodeData}.
Variable home : str.

Lemma get_mount_point_Ok (P : str) (bytes : list Z) :
  encode P = Some bytes ->
  get_mount_point home P
  = Ok (BASE_MOUNT_DIR home ++ sep
        ++ sanitize_filename (stem P ++ lit "_" ++ hash8 bytes)).
Proof.
  intros He. unfold get_mount_point. rewrite He, hexdigest_slice_hash8.
  destruct (BASE_MOUNT_DIR_no_trailing_sep home) as [Hne Hend].
  fold (stem P). f_equal.
  apply join_child; auto using sanitize_filename_no_slash.
Qed.

(** C1, as the code has it.  For a path [P] that has a UTF-8 encoding,
    [get_mount_point P] is [BASE_MOUNT_DIR] joined with the sanitized
    [stem P + "_" + hash8], which is [BASE_MOUNT_DIR + "/" + name]; [hash8]
    is the first 8 characters of the SHA-256 hexadecimal digest of the bytes
    of [P], and [stem P] is the filename of [P] without its extension.  For
    a path without an encoding the call raises [UnicodeEncodeError]. *)
Theorem get_mount_point_formula (P : str) :
  match encode P with
  | Some bytes =>
      get_mount_point home P
      = Ok (join (BASE_MOUNT_DIR home)
                 (sanitize_filename (stem P ++ lit "_" ++ hash8 bytes)))
      /\ join (BASE_MOUNT_DIR home)
              (sanitize_filename (stem P ++ lit "_" ++ hash8 bytes))
         = BASE_MOUNT_DIR home ++ sep
           ++ sanitize_filename (stem P ++ lit "_" ++ hash8 bytes)
      /\ hash8 bytes = slice_to (SHA256.hexdigest bytes) 8
      /\ stem P ++ snd (splitext (basename P)) = basename P
  | None => get_mount_point home P = Raise UnicodeEncodeError
  end.
Proof.
  destruct (encode P) as [bytes|] eqn:He.
  - destruct (BASE_MOUNT_DIR_no_trailing_sep home) as [Hne Hend].
    assert (Hj := join_child (BASE_MOUNT_DIR home) _ Hne Hend
                    (sanitize_filename_no_slash (stem P ++ lit "_" ++ hash8 bytes))).
    split; [|split; [|split]].
    + rewrite Hj. now apply get_mount_point_Ok.
    + exact Hj.
    + symmetry. apply hexdigest_slice_hash8.
    + apply splitext_app.
  - unfold get_mount_point. now rewrite He.
Qed.

(** The name under [BASE_MOUNT_DIR], for a path that has an encoding. *)
Lemma get_mount_point_name (P : str) (bytes : list Z) :
  encode P = Some bytes ->
  exists name,
    get_mount_point home P = Ok (BASE_MOUNT_DIR home ++ sep ++ name)
    /\ (exists pre, name = pre ++ hash8 bytes)
    /\ length (hash8 bytes) = 8%nat
    /\ name <> []
    /\ ~ In chr_slash name
    /\ name <> lit "." /\ name <> lit ".."
    /\ basename (BASE_MOUNT_DIR home ++ sep ++ name) = name
    /\ BASE_MOUNT_DIR home ++ sep ++ name <> BASE_MOUNT_DIR home.
Proof.
  intros He. destruct (hash8_shape bytes) as [Hl Hh].
  assert (Hne : hash8 bytes <> []) by (intros E; rewrite E in Hl; discriminate).
  destruct (sanitize_filename_keeps_suffix (stem P) _ Hne Hh) as [pre Hpre].
  pose proof (sanitize_filename_no_slash (stem P ++ lit "_" ++ hash8 bytes)) as Hs.
  exists (sanitize_filename (stem P ++ lit "_" ++ hash8 bytes)).
  assert (Hlen : (8 <= length (sanitize_filename (stem P ++ lit "_" ++ hash8 bytes)))%nat)
    by (rewrite Hpre, length_app; lia).
  split; [now apply get_mount_point_Ok|].
  split; [now exists pre|].
  split; [exact Hl|].
  split; [intros E; rewrite E in Hlen; simpl in Hlen; lia|].
  split; [exact Hs|].
  split; [intros E; rewrite E in Hlen; simpl in Hlen; lia|].
  split; [intros E; rewrite E in Hlen; simpl in Hlen; lia|].
  split; [now apply basename_child|].
  intros E. apply (f_equal (@length Z)) in E. rewrite !length_app in E.
  simpl in E. lia.
Qed.

(** C10.  Whatever [get_mount_point] returns is [BASE_MOUNT_DIR + "/" +
    name] for a name that ends with the 8 hexadecimal digits of the hash:
    the name is not empty, holds no separator and is neither [.] nor [..],
    it is the last component of the mount point, and the mount point
    differs from [BASE_MOUNT_DIR].  The call returns for every path that
    has a UTF-8 encoding ([encode_total]); it raises only for one that has
    none. *)
Theorem mount_point_strict_descendant (P : str) :
  match get_mount_point home P with
  | Ok mount_point =>
      exists name bytes,
        encode P = Some bytes
        /\ mount_point = BASE_MOUNT_DIR home ++ sep ++ name
        /\ (exists pre, name = pre ++ hash8 bytes)
        /\ length (hash8 bytes) = 8%nat
        /\ name <> []
        /\ ~ In chr_slash name
        /\ name <> lit "." /\ name <> lit ".."
        /\ basename mount_point = name
        /\ mount_point <> BASE_MOUNT_DIR home
  | Raise e => e = UnicodeEncodeError /\ encode P = None
  end.
Proof.
  destruct (encode P) as [bytes|] eqn:He.
  - destruct (get_mount_point_name P bytes He)
      as (name & -> & Hpre & Hl & Hne & Hs & Hd & Hdd & Hb & Hneq).
    exists name, bytes. repeat (split; [assumption || reflexivity|]). exact Hneq.
  - unfold get_mount_point. rewrite He. now split.
Qed.

End MountPointFacts.

(** The constants are those of FIPS 180-4. *)
Example sha256_constants :
  length SHA256.primes = 64%nat
  /\ length SHA256.K = 64%nat
  /\ firstn 2 SHA256.K = [0x428a2f98; 0x71374491]
  /\ nth 63 SHA256.K 0 = 0xc67178f2
  /\ SHA256.wa SHA256.H0 = 0x6a09e667
  /\ SHA256.wh SHA256.H0 = 0x5be0cd19.
Proof. by_computation. Qed.

(** The digests that [hashlib] gives for the empty message, for [abc], for
    a path, and for a message of four blocks. *)
Example sha256_test_vectors :
  SHA256.hexdigest []
  = lit "e3b0c44298fc1c149afbf4c8996fb92427ae41e4649b934ca495991b7852b855"
  /\ SHA256.hexdigest (lit "abc")
     = lit "ba7816bf8f01cfea414140de5dae2223b00361a396177a9cb410ff61f20015ad"
  /\ SHA256.hexdigest Scenario.ubuntu
     = lit "472df921cf4eefce6cf986ea63620fc41629ad7e11f2f61fe611581e665c7331"
  /\ SHA256.hexdigest (repeat 120 200)
     = lit "aa20c23e3201834050679e1d88941b9a6fed0557c9a705cb2c315e2e63fd486d".
Proof. by_computation. Qed.

(** Messages that end at, and just past, the places where the padding
    takes another block: 55, 56, 64 and 119 bytes. *)
Example sha256_block_boundaries :
  let sample n := map (fun i => (Z.of_nat i * 7 + 3) mod 256) (seq 0 n) in
  SHA256.hexdigest (sample 55%nat)
  = lit "e7313d333c272e639f790978283f9eb392e843d0f29b7016828bb1daa4aac70b"
  /\ SHA256.hexdigest (sample 56%nat)
  = lit "4324d65f3c103567f5589c710bc08f8523f929a9272e3af36fc968e52abc6c27"
  /\ SHA256.hexdigest (sample 64%nat)
  = lit "39e3d7b6b5d075d37d053ad89b24b41bef4f3c29760c84447cab3f3be1882241"
  /\ SHA256.hexdigest (sample 119%nat)
  = lit "9ce7368e4daf32341631b492e80359dc9f594b48453cd0dd5bf0b19279cc177e".
Proof. by_computation. Qed.

Example path_examples :
  splitext (basename (lit "/data/Ubuntu-22.04.iso")) = (lit "Ubuntu-22.04", lit ".iso")
  /\ splitext (basename (lit "/x/.bashrc")) = (lit ".bashrc", [])
  /\ splitext (basename (lit "a.tar.gz")) = (lit "a.tar", lit ".gz")
  /\ basename (lit "/x/y/") = []
  /\ join (lit "/home/user") (lit ".iso_mounts") = lit "/home/user/.iso_mounts"
  /\ normpath (lit "/a/b/../c/./d//e/") = lit "/a/c/d/e"
  /\ normpath (lit "a/../..") = lit "..".
Proof. by_computation. Qed.

Example get_mount_point_ubuntu :
  @get_mount_point Toy.unicode Toy.home Scenario.ubuntu
  = Ok (lit "/home/user/.iso_mounts/Ubuntu-22.04_472df921").
Proof. by_computation. Qed.

(** C1 as stated fails on a path that has no UTF-8 encoding: nothing is
    returned. *)
Lemma get_mount_point_undecodable :
  @get_mount_point Toy.unicode Toy.home Scenario.undecodable
  = Raise UnicodeEncodeError.
Proof. by_computation. Qed.

(** Mount points as the interpreter computes them, a Latin-1 name and a
    name of underscores among them. *)
Example get_mount_point_examples :
  @get_mount_point Toy.unicode Toy.home Scenario.image
  = Ok (lit "/home/user/.iso_mounts/a_80228f35")
  /\ @get_mount_point Toy.unicode Toy.home (lit "/notes.txt")
     = Ok (lit "/home/user/.iso_mounts/notes_d129c198")
  /\ @get_mount_point Toy.unicode Toy.home (lit "/data/__.iso")
     = Ok (lit "/home/user/.iso_mounts/cf229331")
  /\ @get_mount_point Toy.unicode Toy.home
       (lit "/data/M" ++ [0xFC] ++ lit "ller " ++ [0xE9] ++ lit ".iso")
     = Ok (lit "/home/user/.iso_mounts/M" ++ [0xFC] ++ lit "ller_" ++ [0xE9]
           ++ lit "_fd352d15").
Proof. by_computation. Qed.

(** * Removing directories *)

Section Invariant.
Context {U : UnicodeData} {World : Type} {os : OS World}.
Variable home : str.

Lemma keeps_weaken {A} (pre : World -> Prop) (m : M World A) :
  keeps anywhere m -> keeps pre m.
Proof. intros H s _. now apply H. Qed.

Lemma keeps_ret {A} (a : A) : keeps anywhere (ret a).
Proof. intros s _ H. exact H. Qed.

Lemma keeps_raise {A} (e : exn) : keeps anywhere (@raise World A e).
Proof. intros s _ H. exact H. Qed.

Lemma keeps_lift {A} (r : result A) : keeps anywhere (lift r).
Proof. intros s _ H. exact H. Qed.

Lemma keeps_query {A} (f : World -> A) : keeps anywhere (query f).
Proof. intros s _ H. exact H. Qed.

Lemma keeps_emit (pre : World -> Prop) (e : event) :
  match e with Rmdir p => forall w, pre w -> empty_at p w | _ => True end ->
  keeps pre (emit e).
Proof.
  intros He s Hp H. unfold emit. simpl. apply Forall_app. split; [exact H|].
  constructor; [|constructor]. unfold rmdir_guarded. simpl.
  destruct e; try exact I. exact (He _ Hp).
Qed.

Lemma keeps_call {A} (pre : World -> Prop) (e : event)
      (f : World -> result A * World) :
  match e with Rmdir p => forall w, pre w -> empty_at p w | _ => True end ->
  keeps pre (call e f).
Proof.
  intros He s Hp H. unfold call. destruct (f (world s)) as [r w'].
  simpl. apply Forall_app. split; [exact H|].
  constructor; [|constructor]. unfold rmdir_guarded. simpl.
  destruct e; try exact I. exact (He _ Hp).
Qed.

Lemma keeps_bind {A B} (pre : World -> Prop) (m : M World A) (k : A -> M World B) :
  keeps pre m -> (forall a, keeps anywhere (k a)) -> keeps pre (bind m k).
Proof.
  intros Hm Hk s Hp H. unfold bind. specialize (Hm s Hp H).
  destruct (m s) as [[a|e] s']; simpl in *; [|exact Hm].
  now apply Hk.
Qed.

Lemma keeps_try {A} (pre : World -> Prop) (body : M World A)
      (handler : exn -> option (M World A)) :
  keeps pre body ->
  (forall e h, handler e = Some h -> keeps anywhere h) ->
  keeps pre (try_except body handler).
Proof.
  intros Hb Hh s Hp H. unfold try_except. specialize (Hb s Hp H).
  destruct (body s) as [[a|e] s']; simpl in *; [exact Hb|].
  destruct (handler e) as [h|] eqn:E; [|exact Hb].
  now apply (Hh e h E).
Qed.

(** Where the emptiness test answers yes, the world is one in which the
    directory exists and lists nothing, and the test has changed nothing. *)
Lemma keeps_bind_exists_and_empty {B} (p : str) (k : bool -> M World B) :
  keeps (empty_at p) (k true) -> keeps anywhere (k false) ->
  keeps anywhere (bind (exists_and_empty p) k).
Proof.
  intros Ht Hf s _ H. unfold exists_and_empty.
  cbv beta iota delta [bind query lift ret].
  destruct (os_path_exists (world s) p) eqn:Ex; [|now apply Hf].
  destruct (os_listdir (world s) p) as [l|e] eqn:El; [|exact H].
  destruct l as [|x l]; [|now apply Hf].
  apply Ht; [now split | exact H].
Qed.

Ltac keeps_handler :=
  let e := fresh "e" in
  let h := fresh "h" in
  let E := fresh "E" in
  intros e h E; destruct e; simpl in E; try discriminate E; injection E as <-.

Ltac keeps_step :=
  cbv beta iota;
  lazymatch goal with
  | |- keeps _ (bind (exists_and_empty _) _) =>
      apply keeps_bind_exists_and_empty
  | |- keeps _ (bind _ _) => apply keeps_bind; [|intro]
  | |- keeps _ (try_except _ _) => apply keeps_try; [|keeps_handler]
  | |- keeps _ (when _ _) => unfold when at 1
  | |- keeps _ (if ?b then _ else _) => destruct b
  | |- keeps _ (open_in_file_manager _) => unfold open_in_file_manager
  | |- keeps _ (is_mounted _) => unfold is_mounted
  | |- keeps _ (sys_exit _) => unfold sys_exit
  | |- keeps _ (print _ _) => apply keeps_emit; exact I
  | |- keeps _ (call (Rmdir _) _) => apply keeps_call; intros ? Hw; exact Hw
  | |- keeps _ (call _ _) => apply keeps_call; exact I
  | |- keeps anywhere (ret _) => apply keeps_ret
  | |- keeps anywhere (raise _) => apply keeps_raise
  | |- keeps anywhere (lift _) => apply keeps_lift
  | |- keeps anywhere (query _) => apply keeps_query
  | |- keeps _ _ => apply keeps_weaken
  end.

Lemma mount_iso_keeps (p : str) : keeps anywhere (mount_iso home p).
Proof. unfold mount_iso. repeat keeps_step. Qed.

Lemma unmount_iso_keeps (p : str) : keeps anywhere (unmount_iso home p).
Proof. unfold unmount_iso. repeat keeps_step. Qed.

Lemma main_keeps (argv : list str) : keeps anywhere (main home argv).
Proof.
  unfold main. repeat keeps_step;
    auto using mount_iso_keeps, unmount_iso_keeps.
Qed.

(** C8.  In every execution of [mount_iso], of [unmount_iso] and of [main],
    from any world and whatever the system answers, each [os.rmdir] is
    called on a directory that exists and whose listing is empty in the
    world of the call. *)
Theorem rmdir_only_when_empty (w : World) :
  (forall p, Forall rmdir_guarded (log (snd (exec (mount_iso home p) w))))
  /\ (forall p, Forall rmdir_guarded (log (snd (exec (unmount_iso home p) w))))
  /\ (forall argv, Forall rmdir_guarded (log (snd (exec (main home argv) w)))).
Proof.
  split; [|split]; intros x; unfold exec.
  - apply mount_iso_keeps; [exact I | constructor].
  - apply unmount_iso_keeps; [exact I | constructor].
  - apply main_keeps; [exact I | constructor].
Qed.

End Invariant.

(** * The paths through [mount_iso], [unmount_iso] and [main] *)

Section Paths.
Context {U : UnicodeData} {World : Type} {os : OS World}.
Variable home : str.

(** C3, as the code has it.  A path that does not resolve to anything that
    exists is refused with the not-found message and exit code 1, before
    anything else is looked at or done.  The test is [os.path.exists]: what
    kind of thing exists there is not asked. *)
Theorem mount_iso_missing_path (w : World) (p : str) :
  os_path_exists w (abspath w p) = false ->
  exec (mount_iso home p) w
  = (Raise (SystemExit 1),
     St w [(w, Print stderr (Msg.iso_not_found (abspath w p)))]).
Proof. intros H. run. rewrite H. reflexivity. Qed.

(** C4, as the code has it.  A path that does not end with [.iso], in any
    letter case, is refused with exit code 1 and one message on the error
    stream: the not-an-ISO message where the path exists, the not-found
    message where it does not, since existence is tested first.  The test
    is on the resolved path, which ends with [.iso] exactly when its
    filename does ([endswith_basename], [iso_suffix_of_filename]). *)
Theorem mount_iso_wrong_extension (w : World) (p : str) :
  endswith (lower (abspath w p)) (lit ".iso") = false ->
  exec (mount_iso home p) w
  = (Raise (SystemExit 1),
     St w [(w, Print stderr
                 (if os_path_exists w (abspath w p)
                  then Msg.not_an_iso (abspath w p)
                  else Msg.iso_not_found (abspath w p)))]).
Proof.
  intros H. run. destruct (os_path_exists w (abspath w p)); [|reflexivity].
  rewrite H. reflexivity.
Qed.

(** C5, as the code has it.  For an existing [.iso] path whose mount point
    is an active mount point, [mount_iso] prints where it is mounted and
    starts the file browser on it, and does nothing else: no mount is run
    and no directory is created.  It exits with code 0 where the browser
    starts and where it is not found, the latter with a warning; any other
    exception of the launch is not caught and ends the run. *)
Theorem mount_iso_already_mounted (w : World) (p mp : str) :
  os_path_exists w (abspath w p) = true ->
  endswith (lower (abspath w p)) (lit ".iso") = true ->
  get_mount_point home (abspath w p) = Ok mp ->
  os_path_ismount w mp = true ->
  let info := (w, Print stdout (Msg.already_mounted (abspath w p) mp)) in
  let launch := (w, Popen [lit "xdg-open"; mp]) in
  exec (mount_iso home p) w
  = match subprocess_Popen w [lit "xdg-open"; mp] with
    | (Ok _, w') => (Raise (SystemExit 0), St w' [info; launch])
    | (Raise (FileNotFoundError _), w') =>
        (Raise (SystemExit 0),
         St w' [info; launch; (w', Print stdout (Msg.no_xdg_open mp))])
    | (Raise e, w') => (Raise e, St w' [info; launch])
    end.
Proof.
  intros Hex Hiso Hmp Hm. run. rewrite Hex. run. rewrite Hiso. run.
  rewrite Hmp. run. rewrite Hm. run.
  destruct (subprocess_Popen w [lit "xdg-open"; mp]) as [[[]|e] w'];
    [reflexivity|]. destruct e; reflexivity.
Qed.

(** C6.  Where the mount point of the path does not exist, [unmount_iso]
    prints one line and exits with code 0: no command is run and the world
    is as it was.  Nothing is asked of the image path itself. *)
Theorem unmount_iso_no_mount_point (w : World) (p mp : str) :
  get_mount_point home (abspath w p) = Ok mp ->
  os_path_exists w mp = false ->
  exec (unmount_iso home p) w
  = (Raise (SystemExit 0),
     St w [(w, Print stdout (Msg.no_mount_point mp (abspath w p)))]).
Proof. intros Hmp Hex. run. rewrite Hmp. run. rewrite Hex. reflexivity. Qed.

(** C7, as the code has it.  With fewer than two arguments after the
    program name, or with an action that is neither [mount] nor [unmount],
    [main] prints the usage lines or the unknown-action line on the error
    stream and exits with code 1; nothing else is done and the world is as
    it was.  Arguments after the second are not counted. *)
Theorem main_rejects_bad_invocation (w : World) (argv : list str) :
  (length argv < 3)%nat
  \/ (nth 1 argv [] <> lit "mount" /\ nth 1 argv [] <> lit "unmount") ->
  exec (main home argv) w
  = (Raise (SystemExit 1),
     St w (if (length argv <? 3)%nat
           then [(w, Print stderr Msg.usage); (w, Print stderr Msg.actions)]
           else [(w, Print stderr (Msg.unknown_action (nth 1 argv [])))])).
Proof.
  intros H. unfold exec, main.
  destruct (length argv <? 3)%nat eqn:Hlen; [reflexivity|].
  destruct H as [H|[Hm Hu]]; [apply Nat.ltb_ge in Hlen; lia|].
  run.
  destruct (str_eqb (nth 1 argv []) (lit "mount")) eqn:E1;
    [apply str_eqb_eq in E1; contradiction|].
  destruct (str_eqb (nth 1 argv []) (lit "unmount")) eqn:E2;
    [apply str_eqb_eq in E2; contradiction|].
  reflexivity.
Qed.

End Paths.

(** * Executions on the concrete system *)

Section Executions.
Import Scenario.
#[local] Existing Instance Toy.unicode.
#[local] Existing Instance Toy.os.

(** C3 at a path where nothing exists. *)
Lemma mount_iso_missing_path_witness :
  os_path_exists bare (abspath bare (lit "/tmp/file.iso")) = false
  /\ exec (mount_iso Toy.home (lit "/tmp/file.iso")) bare
     = (Raise (SystemExit 1),
        St bare [(bare, Print stderr
                          (Msg.iso_not_found (abspath bare (lit "/tmp/file.iso"))))]).
Proof.
  assert (H : os_path_exists bare (abspath bare (lit "/tmp/file.iso")) = false)
    by (vm_compute; reflexivity).
  split; [exact H|].
  exact (mount_iso_missing_path Toy.home bare (lit "/tmp/file.iso") H).
Defined.

(** C3 as stated fails on a directory.  [/tmp] exists and is no regular
    file: it is refused for its extension, not as missing.  A directory
    named like an image passes both tests, and the mount command is run on
    it. *)
Lemma mount_iso_directory_not_missing :
  os_path_exists has_dir (abspath has_dir (lit "/tmp")) = true
  /\ os_path_isfile has_dir (abspath has_dir (lit "/tmp")) = false
  /\ exec (mount_iso Toy.home (lit "/tmp")) has_dir
     = (Raise (SystemExit 1),
        St has_dir [(has_dir, Print stderr (Msg.not_an_iso (lit "/tmp")))])
  /\ str_eqb (Msg.not_an_iso (lit "/tmp")) (Msg.iso_not_found (lit "/tmp")) = false
  /\ os_path_isfile image_is_dir (abspath image_is_dir image) = false
  /\ map snd (log (snd (exec (mount_iso Toy.home image) image_is_dir)))
     = [Makedirs (BASE_MOUNT_DIR Toy.home); Makedirs image_dir;
        Print stdout (Msg.attempting_mount image image_dir);
        Run [lit "mount"; lit "-o"; lit "loop"; image; image_dir];
        Print stderr (Msg.mount_failed [] (lit "mount: failed to set up loop device"));
        Rmdir image_dir;
        Print stdout (Msg.cleaned_after_failed_mount image_dir)].
Proof. by_computation. Qed.

(** C4 at a text file that exists in no world. *)
Lemma mount_iso_wrong_extension_witness :
  endswith (lower (abspath bare (lit "/tmp/file.txt"))) (lit ".iso") = false
  /\ exec (mount_iso Toy.home (lit "/tmp/file.txt")) bare
     = (Raise (SystemExit 1),
        St bare [(bare, Print stderr
                          (if os_path_exists bare (abspath bare (lit "/tmp/file.txt"))
                           then Msg.not_an_iso (abspath bare (lit "/tmp/file.txt"))
                           else Msg.iso_not_found (abspath bare (lit "/tmp/file.txt"))))]).
Proof.
  assert (H : endswith (lower (abspath bare (lit "/tmp/file.txt"))) (lit ".iso") = false)
    by (vm_compute; reflexivity).
  split; [exact H|].
  exact (mount_iso_wrong_extension Toy.home bare (lit "/tmp/file.txt") H).
Defined.

(** C4 as stated fails where the file does not exist: [/tmp/file.txt] is
    refused as not found, and the not-an-ISO message is not printed. *)
Lemma mount_iso_missing_txt_not_found :
  endswith (lower (abspath bare (lit "/tmp/file.txt"))) (lit ".iso") = false
  /\ exec (mount_iso Toy.home (lit "/tmp/file.txt")) bare
     = (Raise (SystemExit 1),
        St bare [(bare, Print stderr (Msg.iso_not_found (lit "/tmp/file.txt")))])
  /\ str_eqb (Msg.iso_not_found (lit "/tmp/file.txt"))
             (Msg.not_an_iso (lit "/tmp/file.txt")) = false.
Proof. by_computation. Qed.

(** C5 at a mounted image, with a file browser that starts. *)
Lemma mount_iso_already_mounted_witness :
  os_path_exists (mounted_image []) (abspath (mounted_image []) image) = true
  /\ endswith (lower (abspath (mounted_image []) image)) (lit ".iso") = true
  /\ get_mount_point Toy.home (abspath (mounted_image []) image) = Ok image_dir
  /\ os_path_ismount (mounted_image []) image_dir = true
  /\ exec (mount_iso Toy.home image) (mounted_image [])
     = (Raise (SystemExit 0),
        St (mounted_image [])
           [(mounted_image [],
             Print stdout (Msg.already_mounted (abspath (mounted_image []) image)
                                               image_dir));
            (mounted_image [], Popen [lit "xdg-open"; image_dir])]).
Proof.
  assert (H1 : os_path_exists (mounted_image []) (abspath (mounted_image []) image) = true)
    by (vm_compute; reflexivity).
  assert (H2 : endswith (lower (abspath (mounted_image []) image)) (lit ".iso") = true)
    by (vm_compute; reflexivity).
  assert (H3 : get_mount_point Toy.home (abspath (mounted_image []) image) = Ok image_dir)
    by (vm_compute; reflexivity).
  assert (H4 : os_path_ismount (mounted_image []) image_dir = true)
    by (vm_compute; reflexivity).
  repeat (split; [assumption|]).
  exact (mount_iso_already_mounted Toy.home (mounted_image []) image image_dir
           H1 H2 H3 H4).
Defined.

(** C5 as stated fails where the file browser is found and may not be
    executed: the launch raises an error that is not [FileNotFoundError],
    nothing catches it, and the run ends with status 1. *)
Lemma mount_iso_browser_not_executable :
  os_path_exists (mounted_image [lit "xdg-open"])
                 (abspath (mounted_image [lit "xdg-open"]) image) = true
  /\ os_path_isfile (mounted_image [lit "xdg-open"])
                    (abspath (mounted_image [lit "xdg-open"]) image) = true
  /\ endswith (lower (abspath (mounted_image [lit "xdg-open"]) image)) (lit ".iso") = true
  /\ get_mount_point Toy.home (abspath (mounted_image [lit "xdg-open"]) image)
     = Ok image_dir
  /\ os_path_ismount (mounted_image [lit "xdg-open"]) image_dir = true
  /\ fst (exec (mount_iso Toy.home image) (mounted_image [lit "xdg-open"]))
     = Raise (OSError (lit "Permission denied"))
  /\ exit_status (fst (exec (mount_iso Toy.home image) (mounted_image [lit "xdg-open"])))
     = 1.
Proof. by_computation. Qed.

(** C6 at a path that is no image and does not exist. *)
Lemma unmount_iso_no_mount_point_witness :
  get_mount_point Toy.home (abspath bare (lit "notes.txt"))
  = Ok (Toy.mount_point_of (lit "/notes.txt"))
  /\ os_path_exists bare (Toy.mount_point_of (lit "/notes.txt")) = false
  /\ exec (unmount_iso Toy.home (lit "notes.txt")) bare
     = (Raise (SystemExit 0),
        St bare [(bare, Print stdout
                          (Msg.no_mount_point (Toy.mount_point_of (lit "/notes.txt"))
                                              (abspath bare (lit "notes.txt"))))]).
Proof.
  assert (H1 : get_mount_point Toy.home (abspath bare (lit "notes.txt"))
               = Ok (Toy.mount_point_of (lit "/notes.txt")))
    by (vm_compute; reflexivity).
  assert (H2 : os_path_exists bare (Toy.mount_point_of (lit "/notes.txt")) = false)
    by (vm_compute; reflexivity).
  repeat (split; [assumption|]).
  exact (unmount_iso_no_mount_point Toy.home bare (lit "notes.txt") _ H1 H2).
Defined.

(** C7 at an invocation with one argument. *)
Lemma main_rejects_bad_invocation_witness :
  ((length [lit "iso_mount_tool.py"; lit "mount"] < 3)%nat
   \/ (nth 1 [lit "iso_mount_tool.py"; lit "mount"] [] <> lit "mount"
       /\ nth 1 [lit "iso_mount_tool.py"; lit "mount"] [] <> lit "unmount"))
  /\ exec (main Toy.home [lit "iso_mount_tool.py"; lit "mount"]) with_image
     = (Raise (SystemExit 1),
        St with_image [(with_image, Print stderr Msg.usage);
                       (with_image, Print stderr Msg.actions)]).
Proof.
  assert (H : (length [lit "iso_mount_tool.py"; lit "mount"] < 3)%nat
              \/ (nth 1 [lit "iso_mount_tool.py"; lit "mount"] [] <> lit "mount"
                  /\ nth 1 [lit "iso_mount_tool.py"; lit "mount"] [] <> lit "unmount"))
    by (left; simpl; lia).
  split; [exact H|].
  exact (main_rejects_bad_invocation Toy.home with_image _ H).
Defined.

(** C7 as stated fails with three arguments after the program name: the
    third is ignored and the image is mounted, with exit code 0. *)
Lemma main_ignores_extra_arguments :
  length [lit "iso_mount_tool.py"; lit "mount"; image; lit "extra"] = 4%nat
  /\ exit_status
       (fst (exec (main Toy.home [lit "iso_mount_tool.py"; lit "mount"; image; lit "extra"])
                  with_image)) = 0
  /\ map snd (log (snd (exec (main Toy.home
                                [lit "iso_mount_tool.py"; lit "mount"; image; lit "extra"])
                             with_image)))
     = [Makedirs (BASE_MOUNT_DIR Toy.home); Makedirs image_dir;
        Print stdout (Msg.attempting_mount image image_dir);
        Run [lit "mount"; lit "-o"; lit "loop"; image; image_dir];
        Print stdout (Msg.mounted image image_dir);
        Print stdout Msg.next_steps;
        Print stdout (Msg.access_hint image_dir);
        Print stdout Msg.unmount_hint;
        Popen [lit "xdg-open"; image_dir]]
  /\ Toy.mounts (world (snd (exec (main Toy.home
                                     [lit "iso_mount_tool.py"; lit "mount"; image; lit "extra"])
                                  with_image)))
     = [image_dir].
Proof. by_computation. Qed.

(** A removal that happens: unmounting where an empty directory was left
    behind removes it. *)
Example unmount_iso_removes_stale_dir :
  exit_status (fst (exec (unmount_iso Toy.home image) stale_dir)) = 0
  /\ map snd (log (snd (exec (unmount_iso Toy.home image) stale_dir)))
     = [Print stderr (Msg.not_mounted image image_dir);
        Rmdir image_dir;
        Print stdout (Msg.cleaned_empty_dir image_dir)]
  /\ os_path_exists (world (snd (exec (unmount_iso Toy.home image) stale_dir)))
                    image_dir = false.
Proof. by_computation. Qed.

(** Mounting, mounting again, unmounting and unmounting again. *)
Example mount_and_unmount_twice :
  let run1 := exec (main Toy.home [lit "tool"; lit "mount"; lit "a.iso"]) with_image in
  let run2 := exec (main Toy.home [lit "tool"; lit "mount"; lit "a.iso"])
                   (world (snd run1)) in
  let run3 := exec (main Toy.home [lit "tool"; lit "unmount"; lit "a.iso"])
                   (world (snd run2)) in
  let run4 := exec (main Toy.home [lit "tool"; lit "unmount"; lit "a.iso"])
                   (world (snd run3)) in
  map (fun r => exit_status (fst r)) [run1; run2; run3; run4] = [0; 0; 0; 0]
  /\ map (fun r => length (filter is_action (map snd (log (snd r)))))
         [run1; run2; run3; run4] = [3; 0; 2; 0]%nat
  /\ map (fun r => Toy.mounts (world (snd r))) [run1; run2; run3; run4]
     = [[image_dir]; [image_dir]; []; []].
Proof. by_computation. Qed.

End Executions.

(** * More on [sanitize_filename] *)

Lemma filter_cons_if {A} (f : A -> bool) (c : A) (t : list A) :
  filter f (c :: t) = if f c then c :: filter f t else filter f t.
Proof. reflexivity. Qed.

Lemma filter_collapse (s : str) :
  filter not_underscore (collapse s) = filter not_underscore s.
Proof.
  induction s as [|c t IH]; [reflexivity|].
  cbn [collapse]. rewrite (filter_cons_if _ c t).
  destruct ((c =? chr_underscore)
            && match t with c' :: _ => c' =? chr_underscore | [] => false end) eqn:G.
  - apply andb_prop in G as [Hc _]. unfold not_underscore at 2.
    rewrite Hc. exact IH.
  - rewrite filter_cons_if, IH. reflexivity.
Qed.

Lemma filter_lstrip (s : str) :
  filter not_underscore (lstrip s (lit "_")) = filter not_underscore s.
Proof.
  induction s as [|c t IH]; [reflexivity|].
  cbn [lstrip]. rewrite in_underscore, (filter_cons_if _ c t).
  destruct (c =? chr_underscore) eqn:Hc.
  - unfold not_underscore at 2. rewrite Hc. exact IH.
  - rewrite filter_cons_if. reflexivity.
Qed.

Lemma filter_rstrip (s : str) :
  filter not_underscore (rstrip s (lit "_")) = filter not_underscore s.
Proof.
  unfold rstrip. rewrite filter_rev, filter_lstrip, filter_rev.
  apply rev_involutive.
Qed.

Lemma length_collapse (s : str) : (length (collapse s) <= length s)%nat.
Proof.
  induction s as [|c t IH]; [reflexivity|].
  simpl. destruct (_ && _); simpl; lia.
Qed.

Lemma length_strip (s chars : str) : (length (strip s chars) <= length s)%nat.
Proof.
  unfold strip.
  destruct (lstrip_suffix s chars) as [pre Hp].
  destruct (rstrip_prefix (lstrip s chars) chars) as [post Hq].
  rewrite Hp at 2. rewrite Hq at 2. rewrite !length_app. lia.
Qed.

Section SanitizeMore.
Context {U : UnicodeData}.

Lemma filter_sub_non_word (s : str) :
  filter not_underscore (sub_non_word s)
  = filter (fun c => in_keep_class c && not_underscore c) s.
Proof.
  induction s as [|c t IH]; [reflexivity|].
  unfold sub_non_word in *. simpl. rewrite IH.
  destruct (in_keep_class c); reflexivity.
Qed.

(** X1.  The characters other than the underscore that the class keeps pass
    through unchanged and in order; nothing else does. *)
Theorem sanitize_filename_keeps_word_chars (s : str) :
  filter not_underscore (sanitize_filename s)
  = filter (fun c => in_keep_class c && not_underscore c) s.
Proof.
  rewrite sanitize_filename_collapse. unfold strip.
  now rewrite filter_rstrip, filter_lstrip, filter_collapse, filter_sub_non_word.
Qed.

Lemma filter_nil_all_underscore (s : str) :
  filter not_underscore s = [] -> Forall (fun c => c = chr_underscore) s.
Proof.
  induction s as [|c t IH]; [constructor|].
  simpl. unfold not_underscore at 1.
  destruct (Z.eqb_spec c chr_underscore); simpl; [|discriminate].
  intros H. constructor; auto.
Qed.

(** X2.  The result is empty exactly when the input has no character that is
    kept other than the underscore. *)
Theorem sanitize_filename_empty_iff (s : str) :
  sanitize_filename s = []
  <-> Forall (fun c => in_keep_class c = false \/ c = chr_underscore) s.
Proof.
  split.
  - intros E. pose proof (sanitize_filename_keeps_word_chars s) as H.
    rewrite E in H. simpl in H. symmetry in H.
    apply Forall_forall. intros c Hc.
    destruct (in_keep_class c) eqn:Hk; [|now left]. right.
    destruct (Z.eqb_spec c chr_underscore) as [|Hne]; [assumption|].
    exfalso.
    assert (Hin : In c (filter (fun c => in_keep_class c && not_underscore c) s)).
    { apply filter_In. split; [exact Hc|]. rewrite Hk. unfold not_underscore.
      apply Z.eqb_neq in Hne. now rewrite Hne. }
    now rewrite H in Hin.
  - intros Hs.
    assert (H : filter not_underscore (sanitize_filename s) = []).
    { rewrite sanitize_filename_keeps_word_chars.
      induction Hs as [|c t Hc _ IH]; [reflexivity|].
      simpl. destruct Hc as [->| ->]; [exact IH|].
      rewrite in_keep_class_underscore. exact IH. }
    apply filter_nil_all_underscore in H.
    destruct (sanitize_filename s) as [|c r] eqn:E; [reflexivity|].
    exfalso. inversion H; subst. exact (sanitize_filename_no_leading s r E).
Qed.

(** X3.  The result is never longer than the input. *)
Theorem sanitize_filename_length (s : str) :
  (length (sanitize_filename s) <= length s)%nat.
Proof.
  rewrite sanitize_filename_collapse.
  pose proof (length_strip (collapse (sub_non_word s)) (lit "_")).
  pose proof (length_collapse (sub_non_word s)).
  unfold sub_non_word in *. rewrite length_map in *. lia.
Qed.

(** X4.  The names that sanitizing leaves as they are: made of kept characters,
    without two adjacent underscores, without an underscore at either end. *)
Theorem sanitize_filename_fixed_points (s : str) :
  sanitize_filename s = s
  <-> Forall (fun c => in_keep_class c = true) s
      /\ (forall a b, s <> a ++ lit "__" ++ b)
      /\ (forall t, s <> chr_underscore :: t)
      /\ (forall t, s <> t ++ [chr_underscore]).
Proof.
  split.
  - intros E. rewrite <- E. split; [|split; [|split]].
    + apply sanitize_filename_Forall; auto using in_keep_class_underscore.
    + exact (sanitize_filename_NoDouble s).
    + exact (sanitize_filename_no_leading s).
    + exact (sanitize_filename_no_trailing s).
  - intros (Hk & Hd & Hl & Hr).
    rewrite sanitize_filename_collapse, (sub_non_word_id _ Hk), (collapse_id _ Hd).
    now apply strip_id.
Qed.

End SanitizeMore.

(** * The directory name *)

Lemma lstrip_app (a b chars : str) :
  lstrip (a ++ b) chars
  = match lstrip a chars with [] => lstrip b chars | r => r ++ b end.
Proof.
  induction a as [|c a IH]; [reflexivity|].
  simpl. destruct (existsb (Z.eqb c) chars); [exact IH | reflexivity].
Qed.

Lemma rstrip_cons (c : Z) (y chars : str) :
  rstrip (c :: y) chars
  = match rstrip y chars with
    | [] => if existsb (Z.eqb c) chars then [] else [c]
    | r => c :: r
    end.
Proof.
  unfold rstrip. simpl rev. rewrite lstrip_app.
  destruct (lstrip (rev y) chars) as [|d r] eqn:E.
  - simpl. destruct (existsb (Z.eqb c) chars); reflexivity.
  - simpl rev at 2.
    destruct (rev r ++ [d]) as [|x l] eqn:E'.
    + destruct (rev r); discriminate.
    + rewrite <- E'. change (d :: r) with ([d] ++ r).
      rewrite <- app_assoc, rev_app_distr. simpl.
      rewrite rev_app_distr. simpl. reflexivity.
Qed.

Lemma rstrip_cons_kept (c : Z) (y chars : str) :
  existsb (Z.eqb c) chars = false -> rstrip (c :: y) chars = c :: rstrip y chars.
Proof. intros H. rewrite rstrip_cons, H. now destruct (rstrip y chars). Qed.

(** Stripping the two ends in either order. *)
Lemma lstrip_rstrip (s chars : str) :
  lstrip (rstrip s chars) chars = rstrip (lstrip s chars) chars.
Proof.
  induction s as [|a t IH]; [reflexivity|].
  cbn [lstrip]. rewrite rstrip_cons.
  destruct (existsb (Z.eqb a) chars) eqn:Ha.
  - rewrite <- IH. destruct (rstrip t chars) as [|d r]; [reflexivity|].
    cbn [lstrip]. now rewrite Ha.
  - rewrite rstrip_cons, Ha.
    destruct (rstrip t chars); cbn [lstrip]; now rewrite Ha.
Qed.

Lemma collapse_cons (c : Z) (t : str) :
  collapse (c :: t)
  = if (c =? chr_underscore)
       && match t with c' :: _ => c' =? chr_underscore | [] => false end
    then collapse t else c :: collapse t.
Proof. reflexivity. Qed.

(** Before an underscore and a character that is none, the substitution is
    that of the part before, without the underscores it ends with. *)
Lemma collapse_before_suffix (x h : str) :
  h <> [] -> Forall (fun c => c <> chr_underscore) h ->
  collapse (x ++ chr_underscore :: h)
  = rstrip (collapse x) (lit "_") ++ chr_underscore :: h.
Proof.
  intros Hne Hh.
  destruct h as [|d h']; [contradiction|].
  assert (Hd : (d =? chr_underscore) = false)
    by (apply Z.eqb_neq; now inversion Hh).
  induction x as [|c x IH].
  - change (collapse (chr_underscore :: d :: h') = chr_underscore :: d :: h').
    rewrite collapse_cons, Hd, andb_false_r. f_equal. now apply collapse_clean.
  - change ((c :: x) ++ chr_underscore :: d :: h')
      with (c :: (x ++ chr_underscore :: d :: h')).
    rewrite collapse_cons, IH, (collapse_cons c x).
    destruct (c =? chr_underscore) eqn:Hc.
    + apply Z.eqb_eq in Hc. subst c.
      destruct x as [|e x].
      * reflexivity.
      * change ((e :: x) ++ chr_underscore :: d :: h')
          with (e :: (x ++ chr_underscore :: d :: h')).
        destruct (e =? chr_underscore) eqn:He; cbn [andb]; [reflexivity|].
        pose proof (collapse_head (e :: x)) as [r Hr]. rewrite Hr.
        assert (Hk : existsb (Z.eqb e) (lit "_") = false)
          by (now rewrite in_underscore).
        rewrite (rstrip_cons chr_underscore), (rstrip_cons_kept e r _ Hk).
        reflexivity.
    + cbn [andb].
      assert (Hk : existsb (Z.eqb c) (lit "_") = false)
        by (now rewrite in_underscore).
      now rewrite (rstrip_cons_kept c _ _ Hk).
Qed.

Section NameShape.
Context {U : UnicodeData}.

(** The name with a hexadecimal suffix: the sanitized name, an underscore
    and the suffix, or the suffix alone where nothing of the name is left. *)
Lemma sanitize_filename_with_suffix (name h : str) :
  h <> [] -> Forall (fun c => is_hex_digit c = true) h ->
  sanitize_filename (name ++ lit "_" ++ h)
  = match sanitize_filename name with
    | [] => h
    | kept => kept ++ lit "_" ++ h
    end.
Proof.
  intros Hne Hh.
  assert (Hu : Forall (fun c => c <> chr_underscore) h).
  { eapply Forall_impl; [|exact Hh]. intros c Hc. now apply hex_digit_facts. }
  assert (Hk : Forall (fun c => in_keep_class c = true) h).
  { eapply Forall_impl; [|exact Hh]. intros c Hc.
    destruct (hex_digit_facts c Hc) as (_ & Hlt & Hs).
    now rewrite in_keep_class_ascii. }
  assert (Hs : Forall (fun c => existsb (Z.eqb c) (lit "_") = false) h).
  { eapply Forall_impl; [|exact Hu]. intros c Hc. rewrite in_underscore.
    now apply Z.eqb_neq. }
  rewrite !sanitize_filename_collapse.
  assert (E : sub_non_word (name ++ lit "_" ++ h)
              = sub_non_word name ++ chr_underscore :: h).
  { unfold sub_non_word. rewrite !map_app. fold (sub_non_word h).
    now rewrite (sub_non_word_id h Hk). }
  rewrite E, (collapse_before_suffix _ h Hne Hu).
  set (c := collapse (sub_non_word name)).
  unfold strip at 2. rewrite <- lstrip_rstrip.
  set (y := rstrip c (lit "_")).
  unfold strip. rewrite lstrip_app.
  destruct (lstrip y (lit "_")) as [|a r] eqn:Ey.
  - assert (El : lstrip (chr_underscore :: h) (lit "_") = h).
    { cbn [lstrip]. rewrite in_underscore, Z.eqb_refl.
      apply lstrip_id. destruct h as [|d h']; [exact I|]. now inversion Hs. }
    rewrite El. exact (rstrip_app_clean [] h _ Hne Hs).
  - change (chr_underscore :: h) with ([chr_underscore] ++ h).
    change (lit "_" ++ h) with ([chr_underscore] ++ h).
    rewrite (app_assoc (a :: r) [chr_underscore] h).
    exact (rstrip_app_clean _ h _ Hne Hs).
Qed.

End NameShape.

Lemma app_eq_suffix {A} (a c b d : list A) :
  a ++ b = c ++ d -> length b = length d -> b = d.
Proof.
  revert c. induction a as [|x a IH]; intros c E L.
  - destruct c as [|y c]; [exact E|].
    apply (f_equal (@length A)) in E. simpl in E. rewrite length_app in E. lia.
  - destruct c as [|y c].
    + apply (f_equal (@length A)) in E. simpl in E. rewrite length_app in E. lia.
    + injection E as _ E. exact (IH c E L).
Qed.

Section MountPointMore.
Context {U : UnicodeData}.
Variable home : str.

(** X5.  The directory name is the sanitized stem, an underscore and the hash;
    where nothing of the stem is left it is the hash alone. *)
Theorem mount_dir_name_shape (P : str) (bytes : list Z) :
  encode P = Some bytes ->
  get_mount_point home P
  = Ok (BASE_MOUNT_DIR home ++ sep
        ++ match sanitize_filename (stem P) with
           | [] => hash8 bytes
           | kept => kept ++ lit "_" ++ hash8 bytes
           end).
Proof.
  intros He. rewrite (get_mount_point_Ok home P bytes He).
  destruct (hash8_shape bytes) as [Hl Hh].
  assert (Hne : hash8 bytes <> []) by (intros E; rewrite E in Hl; discriminate).
  now rewrite (sanitize_filename_with_suffix (stem P) _ Hne Hh).
Qed.

(** X6.  Two paths whose hashes differ have different mount points, whatever
    their names. *)
Theorem mount_points_differ (P1 P2 : str) (b1 b2 : list Z) :
  encode P1 = Some b1 -> encode P2 = Some b2 ->
  hash8 b1 <> hash8 b2 ->
  get_mount_point home P1 <> get_mount_point home P2.
Proof.
  intros H1 H2 Hd E.
  destruct (get_mount_point_name home P1 b1 H1) as (n1 & E1 & [p1 ->] & L1 & _).
  destruct (get_mount_point_name home P2 b2 H2) as (n2 & E2 & [p2 ->] & L2 & _).
  rewrite E1, E2 in E. injection E as E.
  apply app_inv_head in E. injection E as E.
  apply Hd. apply (app_eq_suffix _ _ _ _ E). now rewrite L1, L2.
Qed.

End MountPointMore.

(** * The remaining paths of [mount_iso] and [unmount_iso] *)

(** As [run], through the tests on an exception and on a listing too. *)
Ltac run_on :=
  run; cbv beta iota delta [is_OSError is_nil exn_text].

Section MountProceeds.
Context {U : UnicodeData} {World : Type} {os : OS World}.
Variable home : str.

(** An image that passes the tests and is not mounted yet. *)
Variables (w : World) (p mp : str).
Hypothesis Hexists : os_path_exists w (abspath w p) = true.
Hypothesis Hiso : endswith (lower (abspath w p)) (lit ".iso") = true.
Hypothesis Hmp : get_mount_point home (abspath w p) = Ok mp.
Hypothesis Hfree : os_path_ismount w mp = false.

(** X7.  Where [BASE_MOUNT_DIR] cannot be created the run ends with the error
    and exit code 1: the mount directory is not asked for and no command is
    run. *)
Theorem mount_iso_base_dir_failure (e : exn) (w1 : World) :
  os_makedirs w (BASE_MOUNT_DIR home) = (Raise e, w1) ->
  is_OSError e = true ->
  exec (mount_iso home p) w
  = (Raise (SystemExit 1),
     St w1 [(w, Makedirs (BASE_MOUNT_DIR home));
            (w1, Print stderr
                   (Msg.base_dir_failed (BASE_MOUNT_DIR home) (exn_text e)))]).
Proof.
  intros Hbase He. run. rewrite Hexists. run. rewrite Hiso. run.
  rewrite Hmp. run. rewrite Hfree. run. rewrite Hbase. run. rewrite He.
  reflexivity.
Qed.

(** X8.  Where the mount directory cannot be created the run ends with the
    error and exit code 1, and no command is run. *)
Theorem mount_iso_mount_dir_failure (e : exn) (w1 w2 : World) :
  os_makedirs w (BASE_MOUNT_DIR home) = (Ok tt, w1) ->
  os_makedirs w1 mp = (Raise e, w2) ->
  is_OSError e = true ->
  exec (mount_iso home p) w
  = (Raise (SystemExit 1),
     St w2 [(w, Makedirs (BASE_MOUNT_DIR home));
            (w1, Makedirs mp);
            (w2, Print stderr (Msg.mount_dir_failed mp (exn_text e)))]).
Proof.
  intros Hbase Hdir He. run. rewrite Hexists. run. rewrite Hiso. run.
  rewrite Hmp. run. rewrite Hfree. run. rewrite Hbase. run. rewrite Hdir. run.
  rewrite He. reflexivity.
Qed.

(** Both directories are there and [mount] is run in [w2]. *)
Variables (w1 w2 : World).
Hypothesis Hbase : os_makedirs w (BASE_MOUNT_DIR home) = (Ok tt, w1).
Hypothesis Hdir : os_makedirs w1 mp = (Ok tt, w2).

#[local] Abbreviation mount_attempt :=
  (mount_attempt home w w1 w2 (abspath w p) mp).

(** X9.  A mount that succeeds: four lines are printed, the file browser is
    started on the mount point, and [mount_iso] returns, for exit code 0;
    a browser that is not found costs a warning and nothing else. *)
Theorem mount_iso_success (w3 w4 : World) (r : result unit) :
  subprocess_run w2 (mount_command (abspath w p) mp) = (Ok tt, w3) ->
  subprocess_Popen w3 (browser_command mp) = (r, w4) ->
  started_or_missing r = true ->
  exec (mount_iso home p) w
  = (Ok tt,
     St w4 (mount_attempt
            ++ [(w3, Print stdout (Msg.mounted (abspath w p) mp));
                (w3, Print stdout Msg.next_steps);
                (w3, Print stdout (Msg.access_hint mp));
                (w3, Print stdout Msg.unmount_hint);
                (w3, Popen (browser_command mp))]
            ++ match r with
               | Ok _ => []
               | Raise _ => [(w4, Print stdout (Msg.no_xdg_open mp))]
               end)).
Proof.
  intros Hrun Hopen Hr. unfold mount_command, browser_command in *.
  run. rewrite Hexists. run. rewrite Hiso. run.
  rewrite Hmp. run. rewrite Hfree. run. rewrite Hbase. run. rewrite Hdir. run.
  rewrite Hrun. run. rewrite Hopen. run.
  destruct r as [[]|[]]; try discriminate Hr; reflexivity.
Qed.

(** X10.  A mount that fails: the captured output is printed and the exit code
    is 1.  The mount directory is removed where it lists nothing, and the
    system refusing the removal costs a warning; a directory that lists
    something is left. *)
Theorem mount_iso_failed_mount (out err : str) (w3 w4 : World)
        (l : list str) (r : result unit) :
  subprocess_run w2 (mount_command (abspath w p) mp)
  = (Raise (CalledProcessError out err), w3) ->
  os_path_exists w3 mp = true ->
  os_listdir w3 mp = Ok l ->
  os_rmdir w3 mp = (r, w4) ->
  removed_or_refused r = true ->
  exec (mount_iso home p) w
  = (Raise (SystemExit 1),
     match l with
     | [] =>
         St w4 (mount_attempt
                ++ [(w3, Print stderr (Msg.mount_failed out err));
                    (w3, Rmdir mp);
                    (w4, match r with
                         | Ok _ => Print stdout (Msg.cleaned_after_failed_mount mp)
                         | Raise e =>
                             Print stderr
                               (Msg.rmdir_mount_dir_failed mp (exn_text e))
                         end)])
     | _ :: _ =>
         St w3 (mount_attempt ++ [(w3, Print stderr (Msg.mount_failed out err))])
     end).
Proof.
  intros Hrun Hex3 Hls Hrm Hr. unfold mount_command in *.
  run. rewrite Hexists. run. rewrite Hiso. run.
  rewrite Hmp. run. rewrite Hfree. run. rewrite Hbase. run. rewrite Hdir. run.
  rewrite Hrun. run. rewrite Hex3. run. rewrite Hls. run_on.
  destruct l as [|x l]; run_on; [|reflexivity].
  rewrite Hrm. run_on.
  destruct r as [[]|[]]; try discriminate Hr; reflexivity.
Qed.

(** X11.  No [mount] program: the exit code is 1, and the mount directory that
    was made for the mount stays. *)
Theorem mount_iso_no_mount_command (text : str) (w3 : World) :
  subprocess_run w2 (mount_command (abspath w p) mp)
  = (Raise (FileNotFoundError text), w3) ->
  exec (mount_iso home p) w
  = (Raise (SystemExit 1),
     St w3 (mount_attempt ++ [(w3, Print stderr Msg.no_mount_command)])).
Proof.
  intros Hrun. unfold mount_command in *.
  run. rewrite Hexists. run. rewrite Hiso. run.
  rewrite Hmp. run. rewrite Hfree. run. rewrite Hbase. run. rewrite Hdir. run.
  rewrite Hrun. reflexivity.
Qed.

End MountProceeds.

Section UnmountProceeds.
Context {U : UnicodeData} {World : Type} {os : OS World}.
Variable home : str.

(** A path whose mount point exists. *)
Variables (w : World) (p mp : str).
Hypothesis Hmp : get_mount_point home (abspath w p) = Ok mp.
Hypothesis Hexists : os_path_exists w mp = true.


Hypothesis Hmounted : os_path_ismount w mp = true.


(** X14.  An unmount that fails, or no [umount] program: the exit code is 1, and
    the mount directory is neither listed nor removed. *)
Theorem unmount_iso_failure (e : exn) (w1 : World) :
  subprocess_run w (umount_command mp) = (Raise e, w1) ->
  exec (unmount_iso home p) w
  = match e with
    | CalledProcessError out err =>
        (Raise (SystemExit 1),
         St w1 [(w, Print stdout (Msg.attempting_unmount mp));
                (w, Run (umount_command mp));
                (w1, Print stderr (Msg.unmount_failed mp out err));
                (w1, Print stderr Msg.open_files_hint)])
    | FileNotFoundError _ =>
        (Raise (SystemExit 1),
         St w1 [(w, Print stdout (Msg.attempting_unmount mp));
                (w, Run (umount_command mp));
                (w1, Print stderr Msg.no_umount_command)])
    | _ =>
        (Raise e,
         St w1 [(w, Print stdout (Msg.attempting_unmount mp));
                (w, Run (umount_command mp))])
    end.
Proof.
  intros Hrun. unfold umount_command in *.
  run. rewrite Hmp. run. rewrite Hexists. run. rewrite Hmounted. run.
  rewrite Hrun. destruct e; reflexivity.
Qed.

End UnmountProceeds.

(** * Every execution *)

(** The next answer of the system that an execution waits for. *)
Ltac branch :=
  match goal with
  | |- context [match ?x with _ => _ end] => is_var x; destruct x
  | |- context [match ?x with _ => _ end] =>
      lazymatch x with
      | os_path_exists _ _ => idtac
      | os_path_ismount _ _ => idtac
      | os_listdir _ _ => idtac
      | os_makedirs _ _ => idtac
      | os_rmdir _ _ => idtac
      | subprocess_run _ _ => idtac
      | subprocess_Popen _ _ => idtac
      | get_mount_point _ _ => idtac
      | endswith _ _ => idtac
      | str_eqb _ _ => idtac
      | Nat.ltb _ _ => idtac
      end;
      destruct x eqn:?
  end.

(** All the ways an execution can go, one goal for each. *)
Ltac explore := run_on; repeat (branch; run_on).


Ltac each_event tac :=
  cbv [snd log];
  repeat (apply Forall_cons; [tac|]); apply Forall_nil.


Section Everywhere.
Context {U : UnicodeData} {World : Type} {os : OS World}.
Variable home : str.

(** X15.  [mount] is run only on a path that exists and ends with [.iso], whose
    mount point is not mounted, and after both directories were made; it is
    given the resolved path and the mount point, and no other command is
    run by [mount_iso]. *)
Theorem mount_command_preconditions (w : World) (p : str) (w' : World)
        (argv : list str) :
  In (w', Run argv) (log (snd (exec (mount_iso home p) w))) ->
  exists mp,
    argv = mount_command (abspath w p) mp
    /\ os_path_exists w (abspath w p) = true
    /\ endswith (lower (abspath w p)) (lit ".iso") = true
    /\ get_mount_point home (abspath w p) = Ok mp
    /\ os_path_ismount w mp = false
    /\ fst (os_makedirs w (BASE_MOUNT_DIR home)) = Ok tt
    /\ fst (os_makedirs (snd (os_makedirs w (BASE_MOUNT_DIR home))) mp) = Ok tt
    /\ w' = snd (os_makedirs (snd (os_makedirs w (BASE_MOUNT_DIR home))) mp).
Proof.
  explore; cbv [snd log]; intros HIn;
    repeat (destruct HIn as [HIn|HIn]; [try discriminate HIn|]);
    try contradiction;
    injection HIn as <- <-; eexists;
    repeat match goal with
           | H : os_makedirs _ _ = _ |- _ => rewrite H
           | u : unit |- _ => destruct u
           end;
    repeat split; (eassumption || reflexivity).
Qed.

(** X16.  [umount] is run only on the mount point of the path, where it exists
    and is mounted, and before anything else is done; no other command is
    run by [unmount_iso]. *)
Theorem umount_command_preconditions (w : World) (p : str) (w' : World)
        (argv : list str) :
  In (w', Run argv) (log (snd (exec (unmount_iso home p) w))) ->
  exists mp,
    argv = umount_command mp
    /\ get_mount_point home (abspath w p) = Ok mp
    /\ os_path_exists w mp = true
    /\ os_path_ismount w mp = true
    /\ w' = w.
Proof.
  explore; cbv [snd log]; intros HIn;
    repeat (destruct HIn as [HIn|HIn]; [try discriminate HIn|]);
    try contradiction;
    injection HIn as <- <-; eexists;
    repeat split; (eassumption || reflexivity).
Qed.

(** X17.  [unmount_iso] creates nothing and starts no file browser: besides
    printing it runs [umount] on the mount point of the path and removes
    that directory, and where no mount point can be computed it does
    nothing at all. *)
Theorem unmount_iso_touches_mount_point_only (w : World) (p : str) :
  match get_mount_point home (abspath w p) with
  | Ok mp =>
      Forall (fun we => unmount_only mp (snd we))
             (log (snd (exec (unmount_iso home p) w)))
  | Raise _ => log (snd (exec (unmount_iso home p) w)) = []
  end.
Proof.
  explore; try reflexivity;
    each_event ltac:(cbn [snd unmount_only]; first [exact I | reflexivity]).
Qed.




Lemma mount_iso_counts (w : World) (p : str) :
  (count is_run (snd (exec (mount_iso home p) w)) <= 1
   /\ count is_rmdir (snd (exec (mount_iso home p) w)) <= 1
   /\ count is_makedirs (snd (exec (mount_iso home p) w)) <= 2
   /\ count is_popen (snd (exec (mount_iso home p) w)) <= 1)%nat.
Proof.
  explore;
    cbv [count snd log map filter is_run is_rmdir is_makedirs is_popen length];
    lia.
Qed.

Lemma unmount_iso_counts (w : World) (p : str) :
  (count is_run (snd (exec (unmount_iso home p) w)) <= 1
   /\ count is_rmdir (snd (exec (unmount_iso home p) w)) <= 1
   /\ count is_makedirs (snd (exec (unmount_iso home p) w)) <= 2
   /\ count is_popen (snd (exec (unmount_iso home p) w)) <= 1)%nat.
Proof.
  explore;
    cbv [count snd log map filter is_run is_rmdir is_makedirs is_popen length];
    lia.
Qed.

(** X19.  Nothing is tried twice: one invocation runs at most one command,
    removes at most one directory, asks for at most two directories and
    starts the file browser at most once. *)
Theorem main_does_nothing_twice (w : World) (argv : list str) :
  (count is_run (snd (exec (main home argv) w)) <= 1
   /\ count is_rmdir (snd (exec (main home argv) w)) <= 1
   /\ count is_makedirs (snd (exec (main home argv) w)) <= 2
   /\ count is_popen (snd (exec (main home argv) w)) <= 1)%nat.
Proof.
  unfold exec, main.
  destruct (length argv <? 3)%nat.
  - cbv. lia.
  - cbv beta iota zeta delta [when bind ret].
    destruct (str_eqb (nth 1 argv []) (lit "mount"));
      [apply mount_iso_counts|].
    destruct (str_eqb (nth 1 argv []) (lit "unmount"));
      [apply unmount_iso_counts|].
    cbv. lia.
Qed.

End Everywhere.

(** * Further executions on the concrete system *)

Section MoreExecutions.
Import Scenario.
#[local] Existing Instance Toy.unicode.
#[local] Existing Instance Toy.os.

(** X5 at: the name of an image, and of one whose stem is all underscores. *)
Lemma mount_dir_name_shape_witness :
  get_mount_point Toy.home ubuntu
  = Ok (lit "/home/user/.iso_mounts/Ubuntu-22.04_472df921")
  /\ get_mount_point Toy.home (lit "/data/__.iso")
     = Ok (lit "/home/user/.iso_mounts/cf229331").
Proof.
  rewrite (mount_dir_name_shape Toy.home ubuntu ubuntu
             ltac:(vm_compute; reflexivity)).
  rewrite (mount_dir_name_shape Toy.home (lit "/data/__.iso") (lit "/data/__.iso")
             ltac:(vm_compute; reflexivity)).
  by_computation.
Defined.

(** X6 at: two images of one name in two directories. *)
Lemma mount_points_differ_witness :
  get_mount_point Toy.home (lit "/a/disc.iso")
  <> get_mount_point Toy.home (lit "/b/disc.iso").
Proof.
  apply (mount_points_differ Toy.home (lit "/a/disc.iso") (lit "/b/disc.iso")
           (lit "/a/disc.iso") (lit "/b/disc.iso"));
    [vm_compute; reflexivity | vm_compute; reflexivity |].
  intros E. vm_compute in E. discriminate E.
Defined.

(** X7 where a regular file has the place of [BASE_MOUNT_DIR]. *)
Lemma mount_iso_base_dir_failure_witness :
  exit_status (fst (exec (mount_iso Toy.home image) base_is_file)) = 1
  /\ map snd (log (snd (exec (mount_iso Toy.home image) base_is_file)))
     = [Makedirs (BASE_MOUNT_DIR Toy.home);
        Print stderr (Msg.base_dir_failed (BASE_MOUNT_DIR Toy.home)
                                           (lit "File exists"))].
Proof.
  rewrite (@mount_iso_base_dir_failure Toy.unicode Toy.machine Toy.os Toy.home base_is_file image image_dir
             ltac:(vm_compute; reflexivity) ltac:(vm_compute; reflexivity)
             ltac:(vm_compute; reflexivity) ltac:(vm_compute; reflexivity)
             (OSError (lit "File exists")) base_is_file
             ltac:(vm_compute; reflexivity) ltac:(vm_compute; reflexivity)).
  by_computation.
Defined.

(** X8 where a regular file has the place of the mount point. *)
Lemma mount_iso_mount_dir_failure_witness :
  exit_status (fst (exec (mount_iso Toy.home image) dir_is_file)) = 1
  /\ map snd (log (snd (exec (mount_iso Toy.home image) dir_is_file)))
     = [Makedirs (BASE_MOUNT_DIR Toy.home); Makedirs image_dir;
        Print stderr (Msg.mount_dir_failed image_dir (lit "File exists"))].
Proof.
  rewrite (@mount_iso_mount_dir_failure Toy.unicode Toy.machine Toy.os Toy.home dir_is_file image image_dir
             ltac:(vm_compute; reflexivity) ltac:(vm_compute; reflexivity)
             ltac:(vm_compute; reflexivity) ltac:(vm_compute; reflexivity)
             (OSError (lit "File exists")) dir_is_file dir_is_file
             ltac:(vm_compute; reflexivity) ltac:(vm_compute; reflexivity)
             ltac:(vm_compute; reflexivity)).
  by_computation.
Defined.

(** X9 at an image that is on disk and not mounted. *)
Lemma mount_iso_success_witness :
  exit_status (fst (exec (mount_iso Toy.home image) with_image)) = 0
  /\ Toy.mounts (world (snd (exec (mount_iso Toy.home image) with_image)))
     = [image_dir]
  /\ length (log (snd (exec (mount_iso Toy.home image) with_image))) = 9%nat.
Proof.
  rewrite (@mount_iso_success Toy.unicode Toy.machine Toy.os Toy.home with_image image image_dir
             ltac:(vm_compute; reflexivity) ltac:(vm_compute; reflexivity)
             ltac:(vm_compute; reflexivity) ltac:(vm_compute; reflexivity)
             (with_base with_image) (with_dirs with_image)
             ltac:(vm_compute; reflexivity) ltac:(vm_compute; reflexivity)
             (Toy.set_mounts (with_dirs with_image) [image_dir])
             (Toy.set_mounts (with_dirs with_image) [image_dir]) (Ok tt)
             ltac:(vm_compute; reflexivity) ltac:(vm_compute; reflexivity)
             ltac:(vm_compute; reflexivity)).
  by_computation.
Defined.

(** X10 at a directory with the name of an image: the mount fails and the
    directory made for it is removed again. *)
Lemma mount_iso_failed_mount_witness :
  exit_status (fst (exec (mount_iso Toy.home image) image_is_dir)) = 1
  /\ os_path_exists (world (snd (exec (mount_iso Toy.home image) image_is_dir)))
                    image_dir = false
  /\ length (log (snd (exec (mount_iso Toy.home image) image_is_dir))) = 7%nat.
Proof.
  rewrite (@mount_iso_failed_mount Toy.unicode Toy.machine Toy.os Toy.home image_is_dir image image_dir
             ltac:(vm_compute; reflexivity) ltac:(vm_compute; reflexivity)
             ltac:(vm_compute; reflexivity) ltac:(vm_compute; reflexivity)
             (with_base image_is_dir) (with_dirs image_is_dir)
             ltac:(vm_compute; reflexivity) ltac:(vm_compute; reflexivity)
             [] (lit "mount: failed to set up loop device")
             (with_dirs image_is_dir)
             (snd (Toy.rmdir (with_dirs image_is_dir) image_dir)) [] (Ok tt)
             ltac:(vm_compute; reflexivity) ltac:(vm_compute; reflexivity)
             ltac:(vm_compute; reflexivity) ltac:(vm_compute; reflexivity)
             ltac:(vm_compute; reflexivity)).
  by_computation.
Defined.

(** X11 where no [mount] program is installed: the directory made for the
    mount stays. *)
Lemma mount_iso_no_mount_command_witness :
  exit_status (fst (exec (mount_iso Toy.home image) no_mount_tool)) = 1
  /\ os_path_exists (world (snd (exec (mount_iso Toy.home image) no_mount_tool)))
                    image_dir = true
  /\ length (log (snd (exec (mount_iso Toy.home image) no_mount_tool))) = 5%nat.
Proof.
  rewrite (@mount_iso_no_mount_command Toy.unicode Toy.machine Toy.os Toy.home no_mount_tool image image_dir
             ltac:(vm_compute; reflexivity) ltac:(vm_compute; reflexivity)
             ltac:(vm_compute; reflexivity) ltac:(vm_compute; reflexivity)
             (with_base no_mount_tool) (with_dirs no_mount_tool)
             ltac:(vm_compute; reflexivity) ltac:(vm_compute; reflexivity)
             (lit "No such file or directory") (with_dirs no_mount_tool)
             ltac:(vm_compute; reflexivity)).
  by_computation.
Defined.



(** X14 where no [umount] program is installed. *)
Lemma unmount_iso_failure_witness :
  exit_status (fst (exec (unmount_iso Toy.home image) no_umount_tool)) = 1
  /\ world (snd (exec (unmount_iso Toy.home image) no_umount_tool)) = no_umount_tool
  /\ map snd (log (snd (exec (unmount_iso Toy.home image) no_umount_tool)))
     = [Print stdout (Msg.attempting_unmount image_dir);
        Run (umount_command image_dir);
        Print stderr Msg.no_umount_command].
Proof.
  rewrite (@unmount_iso_failure Toy.unicode Toy.machine Toy.os Toy.home no_umount_tool image image_dir
             ltac:(vm_compute; reflexivity) ltac:(vm_compute; reflexivity)
             ltac:(vm_compute; reflexivity)
             (FileNotFoundError (lit "No such file or directory")) no_umount_tool
             ltac:(vm_compute; reflexivity)).
  by_computation.
Defined.

(** X15 at the mount of an image. *)
Lemma mount_command_preconditions_witness :
  exists mp,
    mount_command image image_dir = mount_command (abspath with_image image) mp
    /\ os_path_exists with_image (abspath with_image image) = true
    /\ endswith (lower (abspath with_image image)) (lit ".iso") = true
    /\ get_mount_point Toy.home (abspath with_image image) = Ok mp
    /\ os_path_ismount with_image mp = false
    /\ fst (os_makedirs with_image (BASE_MOUNT_DIR Toy.home)) = Ok tt
    /\ fst (os_makedirs (snd (os_makedirs with_image (BASE_MOUNT_DIR Toy.home))) mp)
       = Ok tt
    /\ with_dirs with_image
       = snd (os_makedirs (snd (os_makedirs with_image (BASE_MOUNT_DIR Toy.home))) mp).
Proof.
  apply (mount_command_preconditions Toy.home with_image image).
  vm_compute. do 3 right. left. reflexivity.
Defined.

(** X16 at the unmount of a mounted image. *)
Lemma umount_command_preconditions_witness :
  exists mp,
    umount_command image_dir = umount_command mp
    /\ get_mount_point Toy.home (abspath (mounted_image []) image) = Ok mp
    /\ os_path_exists (mounted_image []) mp = true
    /\ os_path_ismount (mounted_image []) mp = true
    /\ mounted_image [] = mounted_image [].
Proof.
  apply (umount_command_preconditions Toy.home (mounted_image []) image).
  vm_compute. right. left. reflexivity.
Defined.

End MoreExecutions.
